(** * LiteLLM chat provider (src/provider.ts): response decoding

    A shallow embedding of [LiteLLMChatModelProvider] and of the part of
    the JavaScript platform it runs on (strings, [TextDecoder], [JSON],
    [String], [Math]), followed by the properties of the decoder. *)

From Stdlib Require Import ZArith NArith PArith List Bool Lia String Ascii.
From Stdlib Require Import Strings.Byte.
From Stdlib Require Import SpecFloat.
Import ListNotations.

Set Implicit Arguments.
Set Warnings "-register-all".

(* ================================================================== *)
(** * The JavaScript platform *)
(* ================================================================== *)

Module JS.

(** ** Strings

    A JavaScript string is a sequence of UTF-16 code units. *)

Definition char16 := N.
Definition jsstring := list char16.

(** [lit] turns a literal of this file into a JavaScript string; [q] does
    the same and reads an apostrophe as the JSON double quote (code 34),
    so that JSON texts stay legible. *)
Definition lit (s : string) : jsstring :=
  List.map N_of_ascii (list_ascii_of_string s).

Definition q (s : string) : jsstring :=
  List.map (fun c => if N.eqb c 39 then 34%N else c) (lit s).

Definition LF : char16 := 10%N.

(** [a === b] on strings *)
Fixpoint jsstring_eqb (a b : jsstring) : bool :=
  match a, b with
  | [], [] => true
  | c :: a', d :: b' => N.eqb c d && jsstring_eqb a' b'
  | _, _ => false
  end.

(** [s.startsWith(p)] *)
Fixpoint startsWith (s p : jsstring) {struct p} : bool :=
  match p, s with
  | [], _ => true
  | _ :: _, [] => false
  | c :: p', d :: s' => N.eqb d c && startsWith s' p'
  end.

(** [s.slice(n)] for [0 <= n] *)
Definition slice (s : jsstring) (n : nat) : jsstring := skipn n s.

(** [s.includes(p)] *)
Fixpoint includes (s p : jsstring) : bool :=
  startsWith s p ||
  match s with
  | [] => false
  | _ :: s' => includes s' p
  end.

(** [s.split("\n")]: the fields between the line feeds, never empty *)
Fixpoint split_LF (s : jsstring) : list jsstring :=
  match s with
  | [] => [[]]
  | c :: s' =>
      if N.eqb c LF then [] :: split_LF s'
      else match split_LF s' with
           | l :: ls => (c :: l) :: ls
           | [] => [[c]]
           end
  end.

(** [a.pop()]: the last element (undefined on an empty array) and the
    array that is left *)
Definition pop {A} (a : list A) : option A * list A :=
  match a with
  | [] => (None, [])
  | x :: a' => (Some (last a' x), removelast a)
  end.

(** ** TextDecoder

    [new TextDecoder()] decodes UTF-8 with replacement of malformed
    sequences and removal of a leading byte order mark.  With
    [{stream: true}] the decoder keeps its state between calls: it is a
    transducer that reads one byte at a time (the UTF-8 decoder of the
    WHATWG Encoding standard). *)

Module TextDecoder.

Record state := mk {
  code_point : N;
  bytes_seen : N;
  bytes_needed : N;
  lower_boundary : N;
  upper_boundary : N;
  bom_seen : bool
}.

Definition init : state := mk 0 0 0 128 191 false.

(** a scalar value as UTF-16 code units *)
Definition utf16 (cp : N) : jsstring :=
  if (cp <? 65536)%N then [cp]
  else [(55296 + N.shiftr (cp - 65536) 10)%N;
        (56320 + N.land (cp - 65536) 1023)%N].

(** output of one code point: the first one is dropped when it is the
    byte order mark *)
Definition emit (st : state) (cp : N) : state * jsstring :=
  let st' := mk 0 0 0 128 191 true in
  if negb (bom_seen st) && N.eqb cp 65279 then (st', [])
  else (st', utf16 cp).

(** the handler at the start of a sequence *)
Definition lead (st : state) (b : N) : state * jsstring :=
  if (b <=? 127)%N then emit st b
  else if (194 <=? b)%N && (b <=? 223)%N then
    (mk (N.land b 31) 0 1 128 191 (bom_seen st), [])
  else if (224 <=? b)%N && (b <=? 239)%N then
    (mk (N.land b 15) 0 2
        (if N.eqb b 224 then 160 else 128)
        (if N.eqb b 237 then 159 else 191) (bom_seen st), [])
  else if (240 <=? b)%N && (b <=? 244)%N then
    (mk (N.land b 7) 0 3
        (if N.eqb b 240 then 144 else 128)
        (if N.eqb b 244 then 143 else 191) (bom_seen st), [])
  else emit st 65533.

Definition step (st : state) (byte : Byte.byte) : state * jsstring :=
  let b := Byte.to_N byte in
  if N.eqb (bytes_needed st) 0 then lead st b
  else if negb ((lower_boundary st <=? b)%N && (b <=? upper_boundary st)%N) then
    (* malformed: U+FFFD, and the byte is read again as a lead byte *)
    let (st1, o1) := emit st 65533 in
    let (st2, o2) := lead st1 b in
    (st2, o1 ++ o2)
  else
    let cp := N.lor (N.shiftl (code_point st) 6) (N.land b 63) in
    let seen := (bytes_seen st + 1)%N in
    if N.eqb seen (bytes_needed st) then emit st cp
    else (mk cp seen (bytes_needed st) 128 191 (bom_seen st), []).

(** [decoder.decode(value, {stream: true})] *)
Fixpoint decode (st : state) (value : list Byte.byte) : state * jsstring :=
  match value with
  | [] => (st, [])
  | b :: value' =>
      let (st1, o1) := step st b in
      let (st2, o2) := decode st1 value' in
      (st2, o1 ++ o2)
  end.

(** the end of the input, as [decode()] without [stream] sees it: an
    unfinished sequence becomes U+FFFD *)
Definition flush (st : state) : jsstring :=
  if N.eqb (bytes_needed st) 0 then [] else snd (emit st 65533).

(** decoding of a whole body at once (as [Response.text()] does) *)
Definition decode_all (body : list Byte.byte) : jsstring :=
  let (st, o) := decode init body in o ++ flush st.

End TextDecoder.

(** ** Numbers

    A JavaScript number is an IEEE 754 binary64 value.  The numbers of
    this development come from [JSON.parse], which rounds the decimal
    literal to the nearest double (ties to even), and they are printed by
    [Number::toString], which writes the shortest decimal that reads back
    as the same double. *)

Module Number.

Definition double := spec_float.
Definition prec : Z := 53.
Definition emax : Z := 1024.

(** the double nearest to [m * 10^e], for [0 <= m] *)
Definition of_decimal (neg : bool) (m e : Z) : double :=
  match m with
  | Zpos _ =>
      if (0 <=? e)%Z then
        match (m * 10 ^ e)%Z with
        | Zpos p => binary_round prec emax neg p 0
        | _ => S754_nan
        end
      else
        let d := (10 ^ (- e))%Z in
        (* the quotient is computed with 55 bits at least, and the rest
           of the division tells on which side of the middle it lies *)
        let s := Z.max 0 (Z.log2 d - Z.log2 m + 56) in
        let n := Z.shiftl m s in
        let r := (n mod d)%Z in
        let loc := if (r =? 0)%Z then loc_Exact
                   else loc_Inexact (Z.compare (2 * r) d) in
        binary_round_aux prec emax neg (n / d) (- s) loc
  | _ => S754_zero neg
  end.

Definition is_zero (x : double) : bool :=
  match x with S754_zero _ => true | _ => false end.

Definition is_nan (x : double) : bool :=
  match x with S754_nan => true | _ => false end.

Definition is_finite (x : double) : bool :=
  match x with S754_zero _ | S754_finite _ _ _ => true | _ => false end.

Definition same_finite (x : double) (m : positive) (e : Z) : bool :=
  match x with
  | S754_finite _ m' e' => Pos.eqb m' m && Z.eqb e' e
  | _ => false
  end.

(** decimal digits of a natural number, most significant first *)
Fixpoint digits_fuel (fuel : nat) (n : N) (acc : jsstring) : jsstring :=
  match fuel with
  | O => acc
  | S fuel' =>
      let acc' := (48 + n mod 10)%N :: acc in
      if N.eqb (n / 10) 0 then acc' else digits_fuel fuel' (n / 10)%N acc'
  end.

Definition digits (n : N) : jsstring :=
  digits_fuel (S (N.to_nat (N.log2 n))) n [].

Definition zeros (n : Z) : jsstring := repeat 48%N (Z.to_nat n).

(** [10^n] as a fraction *)
Definition pow10 (n : Z) : Z * Z :=
  if (0 <=? n)%Z then (10 ^ n, 1)%Z else (1, 10 ^ (- n))%Z.

(** [v = num / den] as a fraction *)
Definition fraction (m : positive) (e : Z) : Z * Z :=
  if (0 <=? e)%Z then (Zpos m * 2 ^ e, 1)%Z else (Zpos m, 2 ^ (- e))%Z.

(** the [n] with [10^(n-1) <= num/den < 10^n], searched upwards from a
    lower estimate *)
Fixpoint magnitude_fuel (fuel : nat) (num den n : Z) : Z :=
  match fuel with
  | O => n
  | S fuel' =>
      let (p, q) := pow10 n in
      if (p * den <=? num * q)%Z then magnitude_fuel fuel' num den (n + 1) else n
  end.

Definition magnitude (num den : Z) : Z :=
  magnitude_fuel 8 num den ((Z.log2 num - Z.log2 den) * 30103 / 100000 - 1).

(** the digit strings of length [k] next to [v], whichever reads back as
    [v]; the nearer one when both do *)
Definition candidate (m : positive) (e : Z) (num den n k : Z) : option Z :=
  let (p, q) := pow10 (n - k) in
  let lo := (num * q / (den * p))%Z in
  let hi := (lo + 1)%Z in
  let ok s := same_finite (of_decimal false s (n - k)) m e in
  match ok lo, ok hi with
  | true, true =>
      match Z.compare (2 * num * q) ((2 * lo + 1) * p * den) with
      | Lt => Some lo
      | Gt => Some hi
      | Eq => Some (if Z.even lo then lo else hi)
      end
  | true, false => Some lo
  | false, true => Some hi
  | false, false => None
  end.

Fixpoint shortest_fuel (fuel : nat) (m : positive) (e : Z) (num den n k : Z)
  : Z * Z * Z :=
  match fuel with
  | O => (0, k, n)%Z
  | S fuel' =>
      match candidate m e num den n k with
      | Some s => if (s =? 10 ^ k)%Z then (1, 1, n + 1)%Z else (s, k, n)
      | None => shortest_fuel fuel' m e num den n (k + 1)
      end
  end.

(** [(s, k, n)] of Number::toString, step 5 *)
Definition shortest (m : positive) (e : Z) : Z * Z * Z :=
  let (num, den) := fraction m e in
  shortest_fuel 17 m e num den (magnitude num den) 1.

Definition exponent_part (n : Z) : jsstring :=
  let e := (n - 1)%Z in
  lit "e" ++ (if (e <? 0)%Z then lit "-" else lit "+") ++ digits (Z.to_N (Z.abs e)).

Definition format (s k n : Z) : jsstring :=
  let ds := digits (Z.to_N s) in
  if (k <=? n)%Z && (n <=? 21)%Z then ds ++ zeros (n - k)
  else if (0 <? n)%Z && (n <=? 21)%Z then
    firstn (Z.to_nat n) ds ++ lit "." ++ skipn (Z.to_nat n) ds
  else if (-6 <? n)%Z && (n <=? 0)%Z then lit "0." ++ zeros (- n) ++ ds
  else if (k =? 1)%Z then ds ++ exponent_part n
  else firstn 1 ds ++ lit "." ++ skipn 1 ds ++ exponent_part n.

(** [Number::toString(x)] in radix 10 *)
Definition toString (x : double) : jsstring :=
  match x with
  | S754_nan => lit "NaN"
  | S754_zero _ => lit "0"
  | S754_infinity s => if s then lit "-Infinity" else lit "Infinity"
  | S754_finite s m e =>
      let '(d, k, n) := shortest m e in
      (if s then lit "-" else []) ++ format d k n
  end.

(** the double of an integer *)
Definition of_Z (z : Z) : double := of_decimal (z <? 0)%Z (Z.abs z) 0.

End Number.

(** ** JSON values *)

Inductive json :=
| JNull
| JBool (b : bool)
| JNum (x : Number.double)
| JStr (s : jsstring)
| JArr (elements : list json)
| JObj (members : list (jsstring * json)).

(** An object is kept as the list of its own properties in the order in
    which they are enumerated: array indices first, in increasing order,
    then the other names in the order of their creation. *)

Definition is_digit (c : char16) : bool := (48 <=? c)%N && (c <=? 57)%N.

Fixpoint number_of_digits (acc : N) (ds : jsstring) : N :=
  match ds with
  | [] => acc
  | d :: ds' => number_of_digits (10 * acc + (d - 48))%N ds'
  end.

(** the array index that a property name denotes, if any *)
Definition array_index (k : jsstring) : option N :=
  match k with
  | [] => None
  | c :: r =>
      if forallb is_digit k && (negb (N.eqb c 48) || match r with [] => true | _ => false end)
         && (List.length k <=? 10)%nat
      then let n := number_of_digits 0 k in
           if (n <=? 4294967294)%N then Some n else None
      else None
  end.

Fixpoint lookup (k : jsstring) (o : list (jsstring * json)) : option json :=
  match o with
  | [] => None
  | (k', v) :: o' => if jsstring_eqb k' k then Some v else lookup k o'
  end.

Definition has_key (k : jsstring) (o : list (jsstring * json)) : bool :=
  match lookup k o with Some _ => true | None => false end.

Fixpoint replace (k : jsstring) (v : json) (o : list (jsstring * json))
  : list (jsstring * json) :=
  match o with
  | [] => []
  | (k', v') :: o' =>
      if jsstring_eqb k' k then (k', v) :: o' else (k', v') :: replace k v o'
  end.

Fixpoint insert_index (i : N) (k : jsstring) (v : json) (o : list (jsstring * json))
  : list (jsstring * json) :=
  match o with
  | [] => [(k, v)]
  | (k', v') :: o' =>
      match array_index k' with
      | Some j => if (i <? j)%N then (k, v) :: o else (k', v') :: insert_index i k v o'
      | None => (k, v) :: o
      end
  end.

(** [CreateDataProperty(o, k, v)] *)
Definition define (k : jsstring) (v : json) (o : list (jsstring * json))
  : list (jsstring * json) :=
  if has_key k o then replace k v o
  else match array_index k with
       | Some i => insert_index i k v o
       | None => o ++ [(k, v)]
       end.

(** ** Reading a value

    The result of an optional chain is a value or [undefined], which is
    [None] here.  [v?.k] is [undefined] when [v] is [undefined] or
    [null]; otherwise it reads the property of the value.  The names
    that the provider reads ([choices], [message], [content], [delta],
    [assistant], [response]) are not defined by any built-in prototype,
    nor on arrays and strings, hence only the own properties of an
    object count. *)

Definition get (k : jsstring) (v : option json) : option json :=
  match v with
  | Some (JObj o) => lookup k o
  | _ => None
  end.

(** [v?.[0]] *)
Definition get0 (v : option json) : option json :=
  match v with
  | Some (JArr (x :: _)) => Some x
  | Some (JStr (c :: _)) => Some (JStr [c])
  | Some (JObj o) => lookup (lit "0") o
  | _ => None
  end.

(** [a ?? b] *)
Definition nullish (a : option json) : bool :=
  match a with
  | None | Some JNull => true
  | _ => false
  end.

Definition coalesce (a b : option json) : option json :=
  if nullish a then b else a.

(** [ToBoolean] *)
Definition truthy (v : option json) : bool :=
  match v with
  | None | Some JNull => false
  | Some (JBool b) => b
  | Some (JNum x) => negb (Number.is_zero x || Number.is_nan x)
  | Some (JStr s) => match s with [] => false | _ => true end
  | Some (JArr _) | Some (JObj _) => true
  end.

Fixpoint join (sep : jsstring) (l : list jsstring) : jsstring :=
  match l with
  | [] => []
  | [x] => x
  | x :: l' => x ++ sep ++ join sep l'
  end.

Fixpoint sequence {A} (l : list (option A)) : option (list A) :=
  match l with
  | [] => Some []
  | None :: _ => None
  | Some x :: l' =>
      match sequence l' with
      | Some r => Some (x :: r)
      | None => None
      end
  end.

(** [String(v)]: [None] stands for the TypeError of an object that has a
    property [toString] of its own, which a parsed value cannot call. *)
Fixpoint String_ (v : json) : option jsstring :=
  match v with
  | JNull => Some (lit "null")
  | JBool b => Some (if b then lit "true" else lit "false")
  | JNum x => Some (Number.toString x)
  | JStr s => Some s
  | JArr l =>
      match sequence (List.map (fun x => match x with
                                         | JNull => Some []
                                         | _ => String_ x
                                         end) l) with
      | Some ss => Some (join (lit ",") ss)
      | None => None
      end
  | JObj o => if has_key (lit "toString") o then None
              else Some (lit "[object Object]")
  end.

(** [String(v)] of a value that may be [undefined] *)
Definition String_of (v : option json) : option jsstring :=
  match v with
  | None => Some (lit "undefined")
  | Some j => String_ j
  end.

(** ** JSON.parse

    The grammar of ECMA-404, read by recursive descent.  The functions
    that read a value take a bound on the depth of their calls; a value
    costs two calls for each bracket or brace it opens and one for each
    comma, and [parse] allows twice the length of the text, which is
    enough for every text ([parse_depth] below). *)

Module JSON.

Definition is_ws (c : char16) : bool :=
  N.eqb c 9 || N.eqb c 10 || N.eqb c 13 || N.eqb c 32.

Fixpoint skip_ws (s : jsstring) : jsstring :=
  match s with
  | c :: s' => if is_ws c then skip_ws s' else s
  | [] => []
  end.

Definition hex_value (c : char16) : option N :=
  if is_digit c then Some (c - 48)%N
  else if (97 <=? c)%N && (c <=? 102)%N then Some (c - 87)%N
  else if (65 <=? c)%N && (c <=? 70)%N then Some (c - 55)%N
  else None.

(** the character that follows a backslash, [u] apart *)
Definition escape (c : char16) : option char16 :=
  if N.eqb c 34 then Some 34%N        (* quotation mark *)
  else if N.eqb c 92 then Some 92%N   (* reverse solidus *)
  else if N.eqb c 47 then Some 47%N   (* solidus *)
  else if N.eqb c 98 then Some 8%N    (* b *)
  else if N.eqb c 102 then Some 12%N  (* f *)
  else if N.eqb c 110 then Some 10%N  (* n *)
  else if N.eqb c 114 then Some 13%N  (* r *)
  else if N.eqb c 116 then Some 9%N   (* t *)
  else None.

Definition push (c : char16) (r : option (jsstring * jsstring))
  : option (jsstring * jsstring) :=
  match r with
  | Some (str, rest) => Some (c :: str, rest)
  | None => None
  end.

(** the characters of a string, after its opening quotation mark *)
Fixpoint string_chars (s : jsstring) : option (jsstring * jsstring) :=
  match s with
  | [] => None
  | c :: r =>
      if N.eqb c 34 then Some ([], r)
      else if N.eqb c 92 then
        match r with
        | [] => None
        | e :: r1 =>
            if N.eqb e 117 then
              match r1 with
              | h1 :: h2 :: h3 :: h4 :: r2 =>
                  match hex_value h1, hex_value h2, hex_value h3, hex_value h4 with
                  | Some a, Some b, Some c', Some d =>
                      push (4096 * a + 256 * b + 16 * c' + d)%N (string_chars r2)
                  | _, _, _, _ => None
                  end
              | _ => None
              end
            else match escape e with
                 | Some c' => push c' (string_chars r1)
                 | None => None
                 end
        end
      else if (c <? 32)%N then None
      else push c (string_chars r)
  end.

Fixpoint span_digits (s : jsstring) : jsstring * jsstring :=
  match s with
  | c :: s' =>
      if is_digit c then let (ds, r) := span_digits s' in (c :: ds, r)
      else ([], s)
  | [] => ([], [])
  end.

(** a number: an optional minus sign; a zero, or a digit from 1 to 9 and
    any digits; optionally a point and one digit at least; optionally
    [e] or [E], an optional sign and one digit at least *)

Definition minus_sign (s : jsstring) : bool * jsstring :=
  match s with
  | c :: r => if N.eqb c 45 then (true, r) else (false, s)
  | [] => (false, s)
  end.

Definition int_part (s : jsstring) : option (jsstring * jsstring) :=
  match s with
  | c :: r =>
      if N.eqb c 48 then Some ([c], r)
      else if is_digit c then Some (span_digits s)
      else None
  | [] => None
  end.

Definition frac_part (s : jsstring) : option (jsstring * jsstring) :=
  match s with
  | c :: r =>
      if N.eqb c 46 then
        match span_digits r with
        | ([], _) => None
        | (fs, r') => Some (fs, r')
        end
      else Some ([], s)
  | [] => Some ([], s)
  end.

Definition exp_sign (s : jsstring) : bool * jsstring :=
  match s with
  | c :: r =>
      if N.eqb c 45 then (true, r)
      else if N.eqb c 43 then (false, r)
      else (false, s)
  | [] => (false, s)
  end.

Definition exp_part (s : jsstring) : option (Z * jsstring) :=
  match s with
  | c :: r =>
      if N.eqb c 101 || N.eqb c 69 then
        let (neg, r1) := exp_sign r in
        match span_digits r1 with
        | ([], _) => None
        | (es, r2) =>
            let e := Z.of_N (number_of_digits 0 es) in
            Some ((if neg then - e else e)%Z, r2)
        end
      else Some (0%Z, s)
  | [] => Some (0%Z, s)
  end.

Definition number (s : jsstring) : option (Number.double * jsstring) :=
  let (neg, s1) := minus_sign s in
  match int_part s1 with
  | None => None
  | Some (ints, s2) =>
      match frac_part s2 with
      | None => None
      | Some (fracs, s3) =>
          match exp_part s3 with
          | None => None
          | Some (e, s4) =>
              let m := Z.of_N (number_of_digits 0 (ints ++ fracs)) in
              Some (Number.of_decimal neg m (e - Z.of_nat (List.length fracs)), s4)
          end
      end
  end.

(** a literal name *)
Definition keyword (w : jsstring) (v : json) (s : jsstring) : option (json * jsstring) :=
  if startsWith s w then Some (v, skipn (List.length w) s) else None.

Fixpoint value (depth : nat) (s : jsstring) {struct depth} : option (json * jsstring) :=
  match depth with
  | O => None
  | S depth' =>
      match skip_ws s with
      | [] => None
      | c :: r =>
          if N.eqb c 123 then                       (* left brace *)
            match skip_ws r with
            | c' :: r' =>
                if N.eqb c' 125 then Some (JObj [], r')
                else members depth' [] r
            | [] => None
            end
          else if N.eqb c 91 then                   (* left bracket *)
            match skip_ws r with
            | c' :: r' =>
                if N.eqb c' 93 then Some (JArr [], r')
                else elements depth' [] r
            | [] => None
            end
          else if N.eqb c 34 then
            match string_chars r with
            | Some (str, r') => Some (JStr str, r')
            | None => None
            end
          else if N.eqb c 116 then keyword (lit "true") (JBool true) (c :: r)
          else if N.eqb c 102 then keyword (lit "false") (JBool false) (c :: r)
          else if N.eqb c 110 then keyword (lit "null") JNull (c :: r)
          else match number (c :: r) with
               | Some (x, r') => Some (JNum x, r')
               | None => None
               end
      end
  end

(** the elements of an array and its right bracket; [acc] holds the
    elements read so far, last first *)
with elements (depth : nat) (acc : list json) (s : jsstring) {struct depth}
  : option (json * jsstring) :=
  match depth with
  | O => None
  | S depth' =>
      match value depth' s with
      | None => None
      | Some (v, r) =>
          match skip_ws r with
          | c :: r' =>
              if N.eqb c 44 then elements depth' (v :: acc) r'
              else if N.eqb c 93 then Some (JArr (rev (v :: acc)), r')
              else None
          | [] => None
          end
      end
  end

(** the members of an object and its right brace; [acc] holds the
    properties created so far *)
with members (depth : nat) (acc : list (jsstring * json)) (s : jsstring) {struct depth}
  : option (json * jsstring) :=
  match depth with
  | O => None
  | S depth' =>
      match skip_ws s with
      | c :: r =>
          if N.eqb c 34 then
            match string_chars r with
            | None => None
            | Some (k, r1) =>
                match skip_ws r1 with
                | c1 :: r2 =>
                    if N.eqb c1 58 then
                      match value depth' r2 with
                      | None => None
                      | Some (v, r3) =>
                          let acc' := define k v acc in
                          match skip_ws r3 with
                          | c3 :: r4 =>
                              if N.eqb c3 44 then members depth' acc' r4
                              else if N.eqb c3 125 then Some (JObj acc', r4)
                              else None
                          | [] => None
                          end
                      end
                    else None
                | [] => None
                end
            end
          else None
      | [] => None
      end
  end.

(** [JSON.parse(text)]: [None] stands for the SyntaxError *)
Definition parse (text : jsstring) : option json :=
  match value (2 * List.length text + 2) text with
  | Some (v, r) => match skip_ws r with [] => Some v | _ => None end
  | None => None
  end.

(** ** JSON.stringify *)

Definition hex_digit (n : N) : char16 :=
  if (n <? 10)%N then (48 + n)%N else (87 + n)%N.

Definition unicode_escape (c : char16) : jsstring :=
  [92; 117; hex_digit (N.shiftr c 12 mod 16); hex_digit (N.shiftr c 8 mod 16);
   hex_digit (N.shiftr c 4 mod 16); hex_digit (c mod 16)]%N.

Definition is_high (c : char16) : bool := (55296 <=? c)%N && (c <=? 56319)%N.
Definition is_low (c : char16) : bool := (56320 <=? c)%N && (c <=? 57343)%N.

Definition quote_char (c : char16) : jsstring :=
  if N.eqb c 8 then [92; 98]%N
  else if N.eqb c 9 then [92; 116]%N
  else if N.eqb c 10 then [92; 110]%N
  else if N.eqb c 12 then [92; 102]%N
  else if N.eqb c 13 then [92; 114]%N
  else if N.eqb c 34 then [92; 34]%N
  else if N.eqb c 92 then [92; 92]%N
  else if (c <? 32)%N || is_high c || is_low c then unicode_escape c
  else [c].

Fixpoint quote_chars (s : jsstring) : jsstring :=
  match s with
  | [] => []
  | c :: r =>
      match r with
      | d :: r' =>
          if is_high c && is_low d then c :: d :: quote_chars r'
          else quote_char c ++ quote_chars r
      | [] => quote_char c
      end
  end.

(** [QuoteJSONString] *)
Definition quote (s : jsstring) : jsstring := [34%N] ++ quote_chars s ++ [34%N].

(** [SerializeJSONProperty] at the indentation [indent], with the gap
    [gap]; a value that [JSON.parse] returns has no [toJSON] to call and
    no property to leave out *)
Fixpoint serialize (gap indent : jsstring) (v : json) : jsstring :=
  let inner := indent ++ gap in
  let wrap (opening closing : jsstring) (items : list jsstring) :=
    match items with
    | [] => opening ++ closing
    | _ =>
        match gap with
        | [] => opening ++ join (lit ",") items ++ closing
        | _ => opening ++ [LF] ++ inner ++ join (lit "," ++ [LF] ++ inner) items
               ++ [LF] ++ indent ++ closing
        end
    end in
  match v with
  | JNull => lit "null"
  | JBool b => if b then lit "true" else lit "false"
  | JNum x => if Number.is_finite x then Number.toString x else lit "null"
  | JStr s => quote s
  | JArr l => wrap (lit "[") (lit "]") (List.map (serialize gap inner) l)
  | JObj o =>
      wrap (lit "{") (lit "}")
           (List.map (fun kv : jsstring * json =>
                        let (k, x) := kv in
                        quote k ++ lit ":" ++ (match gap with [] => [] | _ => lit " " end)
                        ++ serialize gap inner x) o)
  end.

(** [JSON.stringify(v, null, 2)] *)
Definition stringify2 (v : json) : jsstring := serialize (lit "  ") [] v.

(** [JSON.stringify(v)] *)
Definition stringify (v : json) : jsstring := serialize [] [] v.

End JSON.

End JS.

Import JS.

(* ================================================================== *)
(** * The host: the part of the [vscode] API that the provider uses *)
(* ================================================================== *)

Module vscode.

(** the parts of a message and of a response *)
Inductive LanguageModelPart :=
| LanguageModelTextPart (value : jsstring)
| LanguageModelToolCallPart (callId name : jsstring) (input : json)
| LanguageModelToolResultPart (callId : jsstring) (content : list json).

Definition is_tool_call_part (p : LanguageModelPart) : bool :=
  match p with LanguageModelToolCallPart _ _ _ => true | _ => false end.

Inductive LanguageModelChatMessageRole := User | Assistant.

Record LanguageModelChatRequestMessage := {
  role : LanguageModelChatMessageRole;
  content : list LanguageModelPart
}.

Record LanguageModelChatInformation := {
  id : jsstring;
  name : jsstring;
  tooltip : jsstring;
  family : jsstring;
  version : jsstring;
  maxInputTokens : Z;
  maxOutputTokens : Z;
  toolCalling : bool;
  imageInput : bool
}.

Record LanguageModelChatTool := {
  tool_name : jsstring;
  tool_description : jsstring;
  inputSchema : option json
}.

(** [modelOptions] is a bag of values of any type; the two that the
    provider reads are numbers.  A count of tokens is an integer. *)
Record ModelOptions := {
  max_tokens : option Z;
  temperature : option Number.double
}.

Record ProvideLanguageModelChatResponseOptions := {
  modelOptions : option ModelOptions;
  tools : list LanguageModelChatTool
}.

(** [token.isCancellationRequested], as a function of the number of
    times it has been read before *)
Definition CancellationToken := nat -> bool.

(** [Progress<LanguageModelResponsePart>]: the parts reported so far, in
    the order of the reports *)
Definition Progress := list LanguageModelPart.

Definition report (progress : Progress) (part : LanguageModelPart) : Progress :=
  progress ++ [part].

(** [SecretStorage] *)
Definition SecretStorage := list (jsstring * jsstring).

Fixpoint secrets_get (key : jsstring) (secrets : SecretStorage) : option jsstring :=
  match secrets with
  | [] => None
  | (k, v) :: secrets' => if jsstring_eqb k key then Some v else secrets_get key secrets'
  end.

Definition secrets_store (key value : jsstring) (secrets : SecretStorage) : SecretStorage :=
  (key, value) :: secrets.

End vscode.

Import vscode.

(* ================================================================== *)
(** * The network: [fetch], its responses and their bodies *)
(* ================================================================== *)

Inductive exn :=
| Error (message : jsstring)
| SyntaxError
| TypeError
| Rejected (reason : jsstring).

Inductive completion := Normal | Throw (e : exn).

(** what [reader.read()] resolves to before the stream is done: a chunk,
    or a failure of the stream; the end of the list is [done] *)
Inductive ReadResult :=
| Chunk (value : list Byte.byte)
| ReadFailure (reason : jsstring).

Definition ReadableStream := list ReadResult.

Record Request := {
  url : jsstring;
  method : jsstring;
  request_headers : list (jsstring * jsstring);
  request_body : jsstring
}.

Record Response := {
  ok : bool;
  content_type : option jsstring;     (* [headers.get("content-type")] *)
  body : option ReadableStream
}.

(** all the bytes of a body, unless a read fails *)
Fixpoint consume (stream : ReadableStream) : exn + list Byte.byte :=
  match stream with
  | [] => inr []
  | ReadFailure reason :: _ => inl (Rejected reason)
  | Chunk value :: stream' =>
      match consume stream' with
      | inr bytes => inr (value ++ bytes)
      | inl e => inl e
      end
  end.

(** [response.text()] *)
Definition Response_text (response : Response) : exn + jsstring :=
  match body response with
  | None => inr []
  | Some stream =>
      match consume stream with
      | inr bytes => inr (TextDecoder.decode_all bytes)
      | inl e => inl e
      end
  end.

(** [response.json()] *)
Definition Response_json (response : Response) : exn + json :=
  match Response_text response with
  | inl e => inl e
  | inr text =>
      match JSON.parse text with
      | Some v => inr v
      | None => inl SyntaxError
      end
  end.

(** [fetch] resolves to a response or rejects *)
Definition Fetch := Request -> exn + Response.

(* ================================================================== *)
(** * The helpers of [./utils]

    [provider.ts] imports the translation of messages and tools and the
    validation of a request; they are parameters of the provider. *)
(* ================================================================== *)

Record ToolConfig := {
  config_tools : option json;
  config_tool_choice : option json
}.

Record Utils := {
  convertMessages : list LanguageModelChatRequestMessage -> json;
  convertTools : ProvideLanguageModelChatResponseOptions -> ToolConfig;
  (** [None] when the request passes, the exception thrown otherwise *)
  validateRequest : list LanguageModelChatRequestMessage -> option exn
}.

(* ================================================================== *)
(** * [LiteLLMChatModelProvider] *)
(* ================================================================== *)

Module LiteLLMChatModelProvider.

Definition DEFAULT_MAX_OUTPUT_TOKENS : Z := 16000.
Definition DEFAULT_CONTEXT_LENGTH : Z := 128000.

(** ** The fields of an instance

    A [Map] and a [Set] keep their entries in the order of insertion:
    they are lists here. *)

Record ToolCallBuffer := {
  buffer_id : option jsstring;
  buffer_name : option jsstring;
  buffer_args : jsstring
}.

Record TextToolActive := {
  active_name : option jsstring;
  active_index : option Z;
  argBuffer : jsstring;
  emitted : option bool
}.

Record ChatEndpoint := {
  endpoint_model : jsstring;
  modelMaxPromptTokens : Z
}.

Record t := {
  _chatEndpoints : list ChatEndpoint;
  _toolCallBuffers : list (Z * ToolCallBuffer);
  _completedToolCallIndices : list Z;
  _hasEmittedAssistantText : bool;
  _emittedBeginToolCallsHint : bool;
  _textToolParserBuffer : jsstring;
  _textToolActive : option TextToolActive;
  _emittedTextToolCallKeys : list jsstring;
  _emittedTextToolCallIds : list jsstring;
  userAgent : jsstring
}.

(** [new LiteLLMChatModelProvider(secrets, userAgent)] *)
Definition new (userAgent : jsstring) : t :=
  {| _chatEndpoints := [];
     _toolCallBuffers := [];
     _completedToolCallIndices := [];
     _hasEmittedAssistantText := false;
     _emittedBeginToolCallsHint := false;
     _textToolParserBuffer := [];
     _textToolActive := None;
     _emittedTextToolCallKeys := [];
     _emittedTextToolCallIds := [];
     userAgent := userAgent |}.

(** the descriptor that [prepareLanguageModelChatInformation] builds for
    the model [m] of the catalogue *)
Definition information (m : jsstring) : LanguageModelChatInformation :=
  {| id := m;
     name := m;
     tooltip := lit "LiteLLM";
     family := lit "litellm";
     version := lit "1.0.0";
     maxInputTokens := Z.max 1 (DEFAULT_CONTEXT_LENGTH - DEFAULT_MAX_OUTPUT_TOKENS)%Z;
     maxOutputTokens := DEFAULT_MAX_OUTPUT_TOKENS;
     toolCalling := true;
     imageInput := false |}.

(** ** The token estimators *)

(** [Math.ceil(length / 4)] *)
Definition ceil_quarter (length : nat) : Z := ((Z.of_nat length + 3) / 4)%Z.

Definition estimateMessagesTokens (msgs : list LanguageModelChatRequestMessage) : Z :=
  fold_left
    (fun total m =>
       fold_left
         (fun total part =>
            match part with
            | LanguageModelTextPart value => (total + ceil_quarter (List.length value))%Z
            | _ => total
            end)
         (content m) total)
    msgs 0%Z.

(** An object that the caller hands over, as far as [JSON.stringify]
    tells it apart: the data that it serializes, or an object that makes
    [JSON.stringify] throw (a cyclic structure, a BigInt in it). *)
Inductive object_ :=
| Data (v : json)
| Unserializable.

Record FunctionDeclaration := {
  function_name : jsstring;
  function_description : option jsstring;
  parameters : option object_
}.

Record Tool := {
  type_ : jsstring;
  function_ : FunctionDeclaration
}.

Definition optional (k : string) (v : option json) : list (jsstring * json) :=
  match v with
  | Some j => [(lit k, j)]
  | None => []
  end.

(** the value that [JSON.stringify] writes for a tool; [None] when it
    throws *)
Definition tool_json (tool : Tool) : option json :=
  let f := function_ tool in
  let build (params : option json) :=
    JObj [(lit "type", JStr (type_ tool));
          (lit "function",
           JObj ([(lit "name", JStr (function_name f))]
                 ++ optional "description" (option_map JStr (function_description f))
                 ++ optional "parameters" params))] in
  match parameters f with
  | None => Some (build None)
  | Some (Data v) => Some (build (Some v))
  | Some Unserializable => None
  end.

(** [JSON.stringify(tools)] *)
Definition JSON_stringify_tools (tools : list Tool) : option jsstring :=
  match sequence (List.map tool_json tools) with
  | Some js => Some (JSON.stringify (JArr js))
  | None => None
  end.

Definition estimateToolTokens (tools : option (list Tool)) : Z :=
  match tools with
  | None | Some [] => 0%Z
  | Some tools =>
      match JSON_stringify_tools tools with
      | Some text => ceil_quarter (List.length text)
      | None => 0%Z                              (* catch *)
      end
  end.

(** ** Configuration *)

Record Config := {
  baseUrl : jsstring;
  apiKey : jsstring
}.

(** the answers that the user gives to the successive input boxes;
    [None] is a dismissed box *)
Definition Window := list (option jsstring).

Definition showInputBox (window : Window) : option jsstring * Window :=
  match window with
  | [] => (None, [])
  | answer :: window' => (answer, window')
  end.

(** [!s] of a string that may be undefined *)
Definition not_ (s : option jsstring) : bool :=
  match s with
  | None | Some [] => true
  | Some (_ :: _) => false
  end.

Definition ensureConfig (silent : bool) (secrets : SecretStorage) (window : Window)
  : option Config * SecretStorage * Window :=
  let baseUrl := secrets_get (lit "litellm.baseUrl") secrets in
  let apiKey := secrets_get (lit "litellm.apiKey") secrets in
  let '(baseUrl, secrets, window) :=
    if not_ baseUrl && negb silent then
      let (answer, window) := showInputBox window in
      match answer with
      | Some ((_ :: _) as value) =>
          (answer, secrets_store (lit "litellm.baseUrl") value secrets, window)
      | _ => (answer, secrets, window)
      end
    else (baseUrl, secrets, window) in
  let '(apiKey, secrets, window) :=
    if not_ apiKey && negb silent then
      let (answer, window) := showInputBox window in
      match answer with
      | Some ((_ :: _) as value) =>
          (answer, secrets_store (lit "litellm.apiKey") value secrets, window)
      | _ => (answer, secrets, window)
      end
    else (apiKey, secrets, window) in
  match baseUrl with
  | Some ((_ :: _) as url) =>
      (Some {| baseUrl := url;
               apiKey := match apiKey with Some key => key | None => [] end |},
       secrets, window)
  | _ => (None, secrets, window)
  end.

(** ** The streaming decoder *)

(** how the body of the loop over the lines ends: it goes on with the
    next line, or it returns from [processStreamingResponse] *)
Inductive signal := Continue | Return.

(** the body of [for (const line of lines)] *)
Definition line_body (line : jsstring) (progress : Progress) : signal * Progress :=
  if negb (startsWith line (lit "data: ")) then (Continue, progress)
  else
    let data := slice line 6 in
    if jsstring_eqb data (lit "[DONE]") then (Return, progress)
    else
      match JSON.parse data with
      | None => (Continue, progress)                          (* catch *)
      | Some parsed =>
          let content :=
            get (lit "content") (get (lit "delta") (get0 (get (lit "choices") (Some parsed)))) in
          if truthy content then
            match String_of content with
            | Some text => (Continue, report progress (LanguageModelTextPart text))
            | None => (Continue, progress)                    (* catch *)
            end
          else (Continue, progress)
      end.

Fixpoint for_lines (lines : list jsstring) (progress : Progress) : signal * Progress :=
  match lines with
  | [] => (Continue, progress)
  | line :: lines' =>
      match line_body line progress with
      | (Return, progress') => (Return, progress')
      | (Continue, progress') => for_lines lines' progress'
      end
  end.

(** [lines.pop() || ""] *)
Definition or_empty (s : option jsstring) : jsstring :=
  match s with
  | Some ((_ :: _) as s') => s'
  | _ => []
  end.

(** the [while] loop; [polls] counts the readings of the token, [reader]
    holds what the reads to come resolve to *)
Fixpoint read_loop (token : CancellationToken) (polls : nat) (reader : ReadableStream)
    (decoder : TextDecoder.state) (buffer : jsstring) (progress : Progress)
  : completion * Progress :=
  if token polls then (Normal, progress)
  else
    match reader with
    | [] => (Normal, progress)                                (* done *)
    | ReadFailure reason :: _ => (Throw (Rejected reason), progress)
    | Chunk value :: reader' =>
        let (decoder, text) := TextDecoder.decode decoder value in
        let buffer := buffer ++ text in
        let (popped, lines) := pop (split_LF buffer) in
        let buffer := or_empty popped in
        match for_lines lines progress with
        | (Return, progress') => (Normal, progress')
        | (Continue, progress') =>
            read_loop token (S polls) reader' decoder buffer progress'
        end
    end.

Definition processStreamingResponse (responseBody : ReadableStream)
    (progress : Progress) (token : CancellationToken) : completion * Progress :=
  read_loop token 0 responseBody TextDecoder.init [] progress.

(** ** The request and the response *)

Record RequestBody := {
  body_model : jsstring;
  body_messages : json;
  body_stream : bool;
  body_max_tokens : Z;
  body_temperature : Number.double;
  body_tools : option json;
  body_tool_choice : option json
}.

(** the object that [JSON.stringify(requestBody)] writes *)
Definition RequestBody_json (b : RequestBody) : json :=
  JObj ([(lit "model", JStr (body_model b));
         (lit "messages", body_messages b);
         (lit "stream", JBool (body_stream b));
         (lit "max_tokens", JNum (Number.of_Z (body_max_tokens b)));
         (lit "temperature", JNum (body_temperature b))]
        ++ optional "tools" (body_tools b)
        ++ optional "tool_choice" (body_tool_choice b)).

(** [a || b] on numbers *)
Definition or_ (a : option Z) (b : Z) : Z :=
  match a with
  | Some 0%Z | None => b
  | Some n => n
  end.

(** [a ?? b] on numbers *)
Definition coalesce_number (a : option Number.double) (b : Number.double) : Number.double :=
  match a with
  | Some x => x
  | None => b
  end.

(** [x?.f] on an optional record *)
Definition opt {A B} (x : option A) (f : A -> option B) : option B :=
  match x with
  | Some a => f a
  | None => None
  end.

Section WithUtils.

Variable utils : Utils.

Definition requestBody (model : LanguageModelChatInformation)
    (messages : list LanguageModelChatRequestMessage)
    (options : ProvideLanguageModelChatResponseOptions) : RequestBody :=
  let toolConfig := convertTools utils options in
  {| body_model := id model;
     body_messages := convertMessages utils messages;
     body_stream := true;
     body_max_tokens :=
       Z.min (or_ (opt (modelOptions options) max_tokens) 4096) (maxOutputTokens model);
     body_temperature :=
       coalesce_number (opt (modelOptions options) temperature)
                       (Number.of_decimal false 7 (-1));
     body_tools := if truthy (config_tools toolConfig) then config_tools toolConfig else None;
     body_tool_choice :=
       if truthy (config_tool_choice toolConfig) then config_tool_choice toolConfig else None |}.

Definition headers (this : t) (config : Config) : list (jsstring * jsstring) :=
  [(lit "Content-Type", lit "application/json"); (lit "User-Agent", userAgent this)]
  ++ match apiKey config with
     | [] => []
     | key => [(lit "Authorization", lit "Bearer " ++ key); (lit "X-API-Key", key)]
     end.

(** the argument of [fetch] *)
Definition chat_request (this : t) (config : Config)
    (model : LanguageModelChatInformation)
    (messages : list LanguageModelChatRequestMessage)
    (options : ProvideLanguageModelChatResponseOptions) : Request :=
  {| url := baseUrl config ++ lit "/v1/chat/completions";
     method := lit "POST";
     request_headers := headers this config;
     request_body :=
       JSON.stringify (RequestBody_json (requestBody model messages options)) |}.

(** the statements that open [provideLanguageModelChatResponse] *)
Definition reset (this : t) : t :=
  {| _chatEndpoints := _chatEndpoints this;
     _toolCallBuffers := [];                      (* clear() *)
     _completedToolCallIndices := [];             (* clear() *)
     _hasEmittedAssistantText := false;
     _emittedBeginToolCallsHint := false;
     _textToolParserBuffer := [];
     _textToolActive := None;
     _emittedTextToolCallKeys := [];              (* clear() *)
     _emittedTextToolCallIds := [];               (* clear() *)
     userAgent := userAgent this |}.

(** what a call leaves behind: the instance, the secrets and the input
    boxes left, the request sent if any, the parts reported and the way
    the promise settles *)
Record Outcome := {
  instance : t;
  secrets_after : SecretStorage;
  window_after : Window;
  sent : option Request;
  reported : Progress;
  settled : completion
}.

(** the text of a response that is not a stream *)
Definition response_text (json_ : json) : option json :=
  coalesce
    (get (lit "content") (get (lit "message") (get0 (get (lit "choices") (Some json_)))))
    (coalesce
       (get (lit "content") (get0 (get (lit "response") (get (lit "assistant") (Some json_)))))
       (Some (JStr (JSON.stringify2 json_)))).

Definition provideLanguageModelChatResponse (this : t)
    (secrets : SecretStorage) (window : Window) (fetch : Fetch)
    (model : LanguageModelChatInformation)
    (messages : list LanguageModelChatRequestMessage)
    (options : ProvideLanguageModelChatResponseOptions)
    (progress : Progress) (token : CancellationToken) : Outcome :=
  let this := reset this in
  let '(config, secrets, window) := ensureConfig true secrets window in
  let finish sent progress settled :=
    {| instance := this; secrets_after := secrets; window_after := window;
       sent := sent; reported := progress; settled := settled |} in
  match config with
  | None => finish None progress (Throw (Error (lit "LiteLLM not configured")))
  | Some config =>
      match validateRequest utils messages with
      | Some e => finish None progress (Throw e)
      | None =>
          let request := chat_request this config model messages options in
          match fetch request with
          | inl e => finish (Some request) progress (Throw e)
          | inr response =>
              if negb (ok response) then
                match Response_text response with
                | inr text => finish (Some request) progress (Throw (Error text))
                | inl e => finish (Some request) progress (Throw e)
                end
              else
                let contentType :=
                  match content_type response with Some c => c | None => [] end in
                if negb (includes contentType (lit "text/event-stream")) then
                  match Response_json response with
                  | inl e => finish (Some request) progress (Throw e)
                  | inr json_ =>
                      match String_of (response_text json_) with
                      | Some text =>
                          finish (Some request)
                                 (report progress (LanguageModelTextPart text)) Normal
                      | None => finish (Some request) progress (Throw TypeError)
                      end
                  end
                else
                  match body response with
                  | None => finish (Some request) progress (Throw (Error (lit "No response body")))
                  | Some responseBody =>
                      let (settled, progress) :=
                        processStreamingResponse responseBody progress token in
                      finish (Some request) progress settled
                  end
          end
      end
  end.

End WithUtils.

(** ** The count of tokens *)

(** [text] is a string or a message *)
Definition provideTokenCount (_model : LanguageModelChatInformation)
    (text : jsstring + LanguageModelChatRequestMessage) : Z :=
  match text with
  | inl s => ceil_quarter (List.length s)
  | inr m =>
      fold_left
        (fun total part =>
           match part with
           | LanguageModelTextPart value => (total + ceil_quarter (List.length value))%Z
           | _ => total
           end)
        (content m) 0%Z
  end.

(** ** The catalogue of models

    The names [data] and [id] that are read here are, like the names
    above, defined by no built-in prototype. *)

(** the argument of [fetch]: a request without [method] is a GET and has
    no body, which the empty string stands for *)
Definition models_request (this : t) (apiKey baseUrl : jsstring) : Request :=
  {| url := baseUrl ++ lit "/v1/models";
     method := lit "GET";
     request_headers :=
       [(lit "User-Agent", userAgent this)]
       ++ match apiKey with
          | [] => []
          | key => [(lit "Authorization", lit "Bearer " ++ key); (lit "X-API-Key", key)]
          end;
     request_body := [] |}.

(** the value of [models] in what [fetchModels] returns; [parsed.data]
    throws when the document is [null] *)
Definition fetchModels (this : t) (fetch : Fetch) (apiKey baseUrl : jsstring)
  : exn + json :=
  match fetch (models_request this apiKey baseUrl) with
  | inl e => inl e
  | inr resp =>
      if negb (ok resp) then
        match Response_text resp with
        | inr text => inl (Error text)
        | inl e => inl e
        end
      else
        match Response_json resp with
        | inl e => inl e
        | inr JNull => inl TypeError
        | inr parsed =>
            match get (lit "data") (Some parsed) with
            | None | Some JNull => inr (JArr [])                 (* ?? [] *)
            | Some data => inr data
            end
        end
  end.

(** [m.id] when it is a string, as the type [HFModelItem] of [./types]
    declares it *)
Definition item_id (m : json) : option jsstring :=
  match get (lit "id") (Some m) with
  | Some (JStr s) => Some s
  | _ => None
  end.

Definition is_null (v : json) : bool :=
  match v with JNull => true | _ => false end.

(** [models.map((m) => ({id: m.id, ...}))]: a TypeError when [models] is
    no array (it has no method [map]) and when an item is [null]; the
    descriptors otherwise.  The result is [None] when the [id] of an
    item is not a string: the catalogue then does not have the type that
    the provider declares for it, and neither have the descriptors. *)
Definition infos_of (models : json) : option (exn + list LanguageModelChatInformation) :=
  match models with
  | JArr items =>
      if existsb is_null items then Some (inl TypeError)
      else match sequence (List.map item_id items) with
           | Some ids => Some (inr (List.map information ids))
           | None => None
           end
  | _ => Some (inl TypeError)
  end.

(** what a discovery leaves behind *)
Record Prepared := {
  prepared_instance : t;
  prepared_secrets : SecretStorage;
  prepared_window : Window;
  prepared_sent : option Request;
  prepared_result : exn + list LanguageModelChatInformation
}.

Definition set_chatEndpoints (this : t) (endpoints : list ChatEndpoint) : t :=
  {| _chatEndpoints := endpoints;
     _toolCallBuffers := _toolCallBuffers this;
     _completedToolCallIndices := _completedToolCallIndices this;
     _hasEmittedAssistantText := _hasEmittedAssistantText this;
     _emittedBeginToolCallsHint := _emittedBeginToolCallsHint this;
     _textToolParserBuffer := _textToolParserBuffer this;
     _textToolActive := _textToolActive this;
     _emittedTextToolCallKeys := _emittedTextToolCallKeys this;
     _emittedTextToolCallIds := _emittedTextToolCallIds this;
     userAgent := userAgent this |}.

(** [options] is [{silent}]; the token is not read.  [None] as for
    [infos_of]. *)
Definition prepareLanguageModelChatInformation (this : t)
    (secrets : SecretStorage) (window : Window) (fetch : Fetch)
    (silent : bool) (_token : CancellationToken) : option Prepared :=
  let '(config, secrets, window) := ensureConfig silent secrets window in
  let finish this sent result :=
    Some {| prepared_instance := this; prepared_secrets := secrets;
            prepared_window := window; prepared_sent := sent;
            prepared_result := result |} in
  match config with
  | None => finish this None (inr [])
  | Some config =>
      let request := models_request this (apiKey config) (baseUrl config) in
      match fetchModels this fetch (apiKey config) (baseUrl config) with
      | inl e => finish this (Some request) (inl e)
      | inr models =>
          match infos_of models with
          | None => None
          | Some (inl e) => finish this (Some request) (inl e)
          | Some (inr infos) =>
              let endpoints :=
                List.map (fun i => {| endpoint_model := id i;
                                      modelMaxPromptTokens :=
                                        (maxInputTokens i + maxOutputTokens i)%Z |})
                         infos in
              finish (set_chatEndpoints this endpoints) (Some request) (inr infos)
          end
      end
  end.

Definition provideLanguageModelChatInformation (this : t)
    (secrets : SecretStorage) (window : Window) (fetch : Fetch)
    (silent : bool) (token : CancellationToken) : option Prepared :=
  prepareLanguageModelChatInformation this secrets window fetch silent token.

End LiteLLMChatModelProvider.

Import LiteLLMChatModelProvider.

(* ================================================================== *)
(** * Notions used in the statements *)
(* ================================================================== *)

(** a token that is never cancelled *)
Definition never : CancellationToken := fun _ => false.

(** the lines of a text that a line feed ends, and what follows the last
    line feed *)
Definition complete_lines (text : jsstring) : list jsstring :=
  snd (pop (split_LF text)).

Definition partial_line (text : jsstring) : jsstring :=
  or_empty (fst (pop (split_LF text))).

(** the text that the decoder of a stream has produced once it has read
    [bytes] *)
Definition decoded (bytes : list Byte.byte) : jsstring :=
  snd (TextDecoder.decode TextDecoder.init bytes).

Definition is_chunk (r : ReadResult) : bool :=
  match r with Chunk _ => true | ReadFailure _ => false end.

(** the tool-invocation parts among the parts reported *)
Definition tool_calls (progress : Progress) : list LanguageModelPart :=
  filter is_tool_call_part progress.

(** the text parts of a list of messages *)
Definition text_values (msgs : list LanguageModelChatRequestMessage) : list jsstring :=
  flat_map
    (fun m => flat_map (fun part => match part with
                                    | LanguageModelTextPart value => [value]
                                    | _ => []
                                    end) (content m))
    msgs.

Definition sum (l : list Z) : Z := fold_right Z.add 0%Z l.

(** the body of the inner loop of [estimateMessagesTokens] *)
Definition part_tokens (total : Z) (part : LanguageModelPart) : Z :=
  match part with
  | LanguageModelTextPart value => (total + ceil_quarter (List.length value))%Z
  | _ => total
  end.

(** a value that [String] converts: no object in it, below arrays only,
    has a property [toString] *)
Fixpoint printable (v : json) : bool :=
  match v with
  | JArr l => forallb printable l
  | JObj o => negb (has_key (lit "toString") o)
  | _ => true
  end.

(** the content of the delta of the first choice of an event *)
Definition delta_content (parsed : json) : option json :=
  get (lit "content") (get (lit "delta") (get0 (get (lit "choices") (Some parsed)))).

(** the content of the message of the first choice of a document, and
    the content of the other shape of response that the provider knows *)
Definition message_content (json_ : json) : option json :=
  get (lit "content") (get (lit "message") (get0 (get (lit "choices") (Some json_)))).

Definition assistant_content (json_ : json) : option json :=
  get (lit "content") (get0 (get (lit "response") (get (lit "assistant") (Some json_)))).

Definition printable_value (v : option json) : bool :=
  match v with
  | Some j => printable j
  | None => true
  end.

(** the state of a turn is the one of a fresh instance *)
Definition turn_state_clear (this : t) : Prop :=
  _toolCallBuffers this = []
  /\ _completedToolCallIndices this = []
  /\ _hasEmittedAssistantText this = false
  /\ _emittedBeginToolCallsHint this = false
  /\ _textToolParserBuffer this = []
  /\ _textToolActive this = None
  /\ _emittedTextToolCallKeys this = []
  /\ _emittedTextToolCallIds this = [].

(** ** Notions used in the further properties *)

(** the line is the end sentinel *)
Definition is_done (line : jsstring) : bool :=
  startsWith line (lit "data: ") && jsstring_eqb (slice line 6) (lit "[DONE]").

(** the text that a line carries: the line is an event that parses and
    the content of its delta is truthy and converts to a string *)
Definition line_text (line : jsstring) : option jsstring :=
  if startsWith line (lit "data: ") then
    match JSON.parse (slice line 6) with
    | Some parsed =>
        if truthy (delta_content parsed) then String_of (delta_content parsed) else None
    | None => None
    end
  else None.

(** the lines that come before the first end sentinel *)
Fixpoint before_done (lines : list jsstring) : list jsstring :=
  match lines with
  | [] => []
  | line :: lines' => if is_done line then [] else line :: before_done lines'
  end.

(** the texts that lines carry, in their order *)
Definition texts_of (lines : list jsstring) : list jsstring :=
  flat_map (fun line => match line_text line with
                        | Some text => [text]
                        | None => []
                        end) lines.

(** the number of values that the secrets lack *)
Definition missing (secrets : SecretStorage) : nat :=
  ((if not_ (secrets_get (lit "litellm.baseUrl") secrets) then 1 else 0)
   + (if not_ (secrets_get (lit "litellm.apiKey") secrets) then 1 else 0))%nat.

(** one of the two steps of [ensureConfig]: the value [current] of the
    secret [key] is asked for when it is missing and the call is not
    silent, and the answer is stored unless it is empty *)
Definition ask (silent : bool) (key : jsstring) (current : option jsstring)
    (secrets : SecretStorage) (window : Window)
  : option jsstring * SecretStorage * Window :=
  if not_ current && negb silent then
    let (answer, window) := showInputBox window in
    match answer with
    | Some ((_ :: _) as value) => (answer, secrets_store key value secrets, window)
    | _ => (answer, secrets, window)
    end
  else (current, secrets, window).

(** what a reader of JSON returns, with a carriage return after what
    it has not read *)
Definition rest_CR {A} (o : option (A * jsstring)) : option (A * jsstring) :=
  match o with
  | Some (a, r) => Some (a, r ++ [13%N])
  | None => None
  end.

(** the value of a header of a request *)
Fixpoint header (name : jsstring) (headers : list (jsstring * jsstring)) : option jsstring :=
  match headers with
  | [] => None
  | (k, v) :: headers' => if jsstring_eqb k name then Some v else header name headers'
  end.

(** ** The formulas of the specification *)

Module Spec.

(** [min(requested ?? 4096, model.maxOutputTokens)] *)
Definition max_tokens (requested : option Z) (maxOutputTokens : Z) : Z :=
  Z.min (match requested with Some r => r | None => 4096%Z end) maxOutputTokens.

(** the character length of all the text of the messages, divided by 4
    and rounded up *)
Definition estimateMessages (msgs : list LanguageModelChatRequestMessage) : Z :=
  ceil_quarter (List.length (List.concat (text_values msgs))).

End Spec.

(** ** Sample data *)

Module Sample.

(** the bytes of a text of ASCII characters, in which an apostrophe
    stands for the double quote, followed by a line feed *)
Definition line (s : string) : list Byte.byte :=
  List.map (fun c => match Byte.of_N c with Some b => b | None => x00 end)
           (q s ++ [LF]).

(** the same without the line feed *)
Definition bytes (s : string) : list Byte.byte :=
  List.map (fun c => match Byte.of_N c with Some b => b | None => x00 end) (q s).

(** helpers that accept every request and send the text of the messages *)
Definition utils : Utils :=
  {| convertMessages := fun msgs =>
       JArr (List.map (fun m =>
               JObj [(lit "role", JStr (match role m with
                                        | User => lit "user"
                                        | Assistant => lit "assistant"
                                        end));
                     (lit "content", JStr (List.concat (text_values [m])))]) msgs);
     convertTools := fun _ => {| config_tools := None; config_tool_choice := None |};
     validateRequest := fun _ => None |}.

Definition secrets : SecretStorage :=
  [(lit "litellm.baseUrl", lit "http://localhost:4000");
   (lit "litellm.apiKey", lit "sk-1234")].

Definition model : LanguageModelChatInformation := information (lit "gpt-4o").

Definition message (text : string) : LanguageModelChatRequestMessage :=
  {| role := User; content := [LanguageModelTextPart (lit text)] |}.

Definition options (requested : option Z) : ProvideLanguageModelChatResponseOptions :=
  {| modelOptions := Some {| max_tokens := requested; temperature := None |};
     tools := [] |}.

(** a backend that answers every request with [response] *)
Definition backend (response : Response) : Fetch := fun _ => inr response.

Definition json_response (text : string) : Response :=
  {| ok := true;
     content_type := Some (lit "application/json");
     body := Some [Chunk (bytes text)] |}.

(** two text events and the end sentinel *)
Definition hello : list Byte.byte :=
  line "data: {'choices':[{'delta':{'content':'Hel'}}]}"
  ++ line "data: {'choices':[{'delta':{'content':'lo'}}]}"
  ++ line "data: [DONE]".

(** the events of a tool call [lookup] with index 0: its arguments in
    two fragments, its arguments in one piece, and the finish signal *)
Definition fragment1 : string :=
  "{'choices':[{'index':0,'delta':{'tool_calls':[{'index':0,'id':'call_1','type':'function','function':{'name':'lookup','arguments':'{\'q\':'}}]}}]}".

Definition fragment2 : string :=
  "{'choices':[{'index':0,'delta':{'tool_calls':[{'index':0,'function':{'arguments':'\'x\'}'}}]}}]}".

Definition whole : string :=
  "{'choices':[{'index':0,'delta':{'tool_calls':[{'index':0,'id':'call_1','type':'function','function':{'name':'lookup','arguments':'{\'q\':\'x\'}'}}]}}]}".

Definition finish : string :=
  "{'choices':[{'index':0,'delta':{},'finish_reason':'tool_calls'}]}".

Definition event (payload : string) : list Byte.byte :=
  line ("data: " ++ payload).

(** a tool call whose arguments come in two fragments, then the finish
    signal and the end sentinel *)
Definition tool_call_split : list Byte.byte :=
  event fragment1 ++ event fragment2 ++ event finish ++ line "data: [DONE]".

(** the same tool call with its arguments in one event *)
Definition tool_call_whole : list Byte.byte :=
  event whole ++ event finish ++ line "data: [DONE]".

(** the tool-call fragments of the delta of the first choice *)
Definition delta_tool_calls (payload : string) : option json :=
  get (lit "tool_calls")
      (get (lit "delta") (get0 (get (lit "choices") (JSON.parse (q payload))))).

(** an instance that a previous turn has left in some state *)
Definition used : t :=
  {| _chatEndpoints := [{| endpoint_model := lit "gpt-4o"; modelMaxPromptTokens := 128000 |}];
     _toolCallBuffers := [(0%Z, {| buffer_id := Some (lit "call_1");
                                  buffer_name := Some (lit "lookup");
                                  buffer_args := q "{'q':" |})];
     _completedToolCallIndices := [1%Z];
     _hasEmittedAssistantText := true;
     _emittedBeginToolCallsHint := true;
     _textToolParserBuffer := lit "lookup(";
     _textToolActive := Some {| active_name := Some (lit "lookup");
                                active_index := Some 0%Z;
                                argBuffer := lit "{";
                                emitted := Some false |};
     _emittedTextToolCallKeys := [lit "lookup:{}"];
     _emittedTextToolCallIds := [lit "call_0"];
     userAgent := lit "litellm-vscode-chat/0.1" |}.

(** an instance that has served no turn yet, with the same endpoints *)
Definition fresh : t :=
  {| _chatEndpoints := [{| endpoint_model := lit "gpt-4o"; modelMaxPromptTokens := 128000 |}];
     _toolCallBuffers := [];
     _completedToolCallIndices := [];
     _hasEmittedAssistantText := false;
     _emittedBeginToolCallsHint := false;
     _textToolParserBuffer := [];
     _textToolActive := None;
     _emittedTextToolCallKeys := [];
     _emittedTextToolCallIds := [];
     userAgent := lit "litellm-vscode-chat/0.1" |}.

Definition stream_response (chunks : list (list Byte.byte)) : Response :=
  {| ok := true;
     content_type := Some (lit "text/event-stream");
     body := Some (List.map Chunk chunks) |}.

(** a JSON document whose message content is an object with a property
    [toString] *)
Definition toString_response : Response :=
  json_response "{'choices':[{'message':{'content':{'toString':'x'}}}]}".

(** an answer that is no JSON document *)
Definition plain_response : Response :=
  {| ok := true;
     content_type := Some (lit "text/plain");
     body := Some [Chunk (bytes "Internal Server Error")] |}.

(** a catalogue of two models *)
Definition catalogue : Response :=
  json_response "{'object':'list','data':[{'id':'gpt-4o','object':'model'},{'id':'claude-3'}]}".

(** an answer that is not a success *)
Definition refusal : Response :=
  {| ok := false;
     content_type := Some (lit "application/json");
     body := Some [Chunk (bytes "{'error':'bad key'}")] |}.

(** a document without the field [data] *)
Definition no_data : Response := json_response "{'object':'list'}".

End Sample.

(* ================================================================== *)
(** * The JSON reader: the bound on the depth is enough *)
(* ================================================================== *)

Section Reader.

Lemma skip_ws_length (s : jsstring) :
  (List.length (JSON.skip_ws s) <= List.length s)%nat.
Proof.
  induction s as [|c s IH]; cbn; [lia|]. destruct (JSON.is_ws c); cbn; lia.
Qed.

Lemma skip_ws_cons (s r : jsstring) (c : char16) :
  JSON.skip_ws s = c :: r -> (List.length r < List.length s)%nat.
Proof.
  intros H. pose proof (skip_ws_length s) as L. rewrite H in L. cbn in L. lia.
Qed.

Lemma push_Some c o str r :
  JSON.push c o = Some (str, r) -> exists str', o = Some (str', r).
Proof. destruct o as [[str' r']|]; cbn; [|discriminate]. intros [= _ <-]. eauto. Qed.

Lemma string_chars_length_bounded : forall (n : nat) (s str r : jsstring),
  (List.length s <= n)%nat ->
  JSON.string_chars s = Some (str, r) -> (List.length r < List.length s)%nat.
Proof.
  induction n as [|n IH]; intros s str r Hn H.
  - destruct s; [discriminate H|cbn in Hn; lia].
  - destruct s as [|c s]; [discriminate H|]. cbn [JSON.string_chars] in H. cbn in Hn.
    destruct (N.eqb c 34).
    { injection H as _ <-. cbn. lia. }
    destruct (N.eqb c 92).
    + destruct s as [|e s]; [discriminate H|].
      destruct (N.eqb e 117).
      * destruct s as [|h1 [|h2 [|h3 [|h4 s]]]]; try discriminate H.
        destruct (JSON.hex_value h1), (JSON.hex_value h2), (JSON.hex_value h3),
          (JSON.hex_value h4); try discriminate H.
        apply push_Some in H as [str' H]. apply IH in H; cbn in *; lia.
      * destruct (JSON.escape e); [|discriminate H].
        apply push_Some in H as [str' H]. apply IH in H; cbn in *; lia.
    + destruct (N.ltb c 32); [discriminate H|].
      apply push_Some in H as [str' H]. apply IH in H; cbn in *; lia.
Qed.

Lemma string_chars_length (s str r : jsstring) :
  JSON.string_chars s = Some (str, r) -> (List.length r < List.length s)%nat.
Proof. apply (@string_chars_length_bounded (List.length s)). lia. Qed.

Lemma span_digits_length (s ds r : jsstring) :
  JSON.span_digits s = (ds, r) -> (List.length r <= List.length s)%nat.
Proof.
  revert ds r. induction s as [|c s IH]; cbn; intros ds r.
  - intros [= _ <-]. cbn. lia.
  - destruct (is_digit c); [|intros [= _ <-]; cbn; lia].
    destruct (JSON.span_digits s) as [ds' r']. intros [= _ <-].
    specialize (IH _ _ eq_refl). lia.
Qed.

Lemma minus_sign_length (s r : jsstring) (neg : bool) :
  JSON.minus_sign s = (neg, r) -> (List.length r <= List.length s)%nat.
Proof.
  destruct s as [|c s]; cbn; [intros [= _ <-]; cbn; lia|].
  destruct (N.eqb c 45); intros [= _ <-]; cbn; lia.
Qed.

Lemma int_part_length (s ints r : jsstring) :
  JSON.int_part s = Some (ints, r) -> (List.length r < List.length s)%nat.
Proof.
  destruct s as [|c s]; [discriminate|]. unfold JSON.int_part.
  destruct (N.eqb c 48); [intros [= _ <-]; cbn; lia|].
  destruct (is_digit c) eqn:Ed; [|discriminate].
  cbn [JSON.span_digits]. rewrite Ed.
  destruct (JSON.span_digits s) as [ds r'] eqn:Es. intros [= _ <-].
  apply span_digits_length in Es. cbn. lia.
Qed.

Lemma frac_part_length (s fracs r : jsstring) :
  JSON.frac_part s = Some (fracs, r) -> (List.length r <= List.length s)%nat.
Proof.
  destruct s as [|c s]; cbn; [intros [= _ <-]; cbn; lia|].
  destruct (N.eqb c 46); [|intros [= _ <-]; cbn; lia].
  destruct (JSON.span_digits s) as [[|f fs] r'] eqn:Es; [discriminate|].
  intros [= _ <-]. apply span_digits_length in Es. lia.
Qed.

Lemma exp_sign_length (s r : jsstring) (neg : bool) :
  JSON.exp_sign s = (neg, r) -> (List.length r <= List.length s)%nat.
Proof.
  destruct s as [|c s]; cbn; [intros [= _ <-]; cbn; lia|].
  destruct (N.eqb c 45); [intros [= _ <-]; cbn; lia|].
  destruct (N.eqb c 43); intros [= _ <-]; cbn; lia.
Qed.

Lemma exp_part_length (s r : jsstring) (e : Z) :
  JSON.exp_part s = Some (e, r) -> (List.length r <= List.length s)%nat.
Proof.
  destruct s as [|c s]; cbn; [intros [= _ <-]; cbn; lia|].
  destruct (N.eqb c 101 || N.eqb c 69); [|intros [= _ <-]; cbn; lia].
  destruct (JSON.exp_sign s) as [neg r1] eqn:Eg. apply exp_sign_length in Eg.
  destruct (JSON.span_digits r1) as [[|d ds] r2] eqn:Es; [discriminate|].
  intros [= _ <-]. apply span_digits_length in Es. lia.
Qed.

Lemma number_length (s r : jsstring) (x : Number.double) :
  JSON.number s = Some (x, r) -> (List.length r < List.length s)%nat.
Proof.
  unfold JSON.number.
  destruct (JSON.minus_sign s) as [neg s1] eqn:E1. apply minus_sign_length in E1.
  destruct (JSON.int_part s1) as [[ints s2]|] eqn:E2; [|discriminate].
  apply int_part_length in E2.
  destruct (JSON.frac_part s2) as [[fracs s3]|] eqn:E3; [|discriminate].
  apply frac_part_length in E3.
  destruct (JSON.exp_part s3) as [[e s4]|] eqn:E4; [|discriminate].
  apply exp_part_length in E4. intros [= _ <-]. lia.
Qed.

Lemma keyword_length (w s r : jsstring) (v v' : json) :
  w <> [] -> JSON.keyword w v s = Some (v', r) -> (List.length r < List.length s)%nat.
Proof.
  unfold JSON.keyword. intros Hw. destruct (startsWith s w) eqn:E; [|discriminate].
  intros [= _ <-]. destruct w as [|c w]; [contradiction|].
  destruct s as [|d s]; [discriminate E|]. cbn [skipn List.length].
  pose proof (length_skipn (List.length w) s). lia.
Qed.

End Reader.

Section Depth.

Ltac enter d' :=
  let H := fresh "Hd" in
  intros d' H; destruct d' as [|d']; [exfalso; cbn in *; lia|];
  cbn [JSON.value JSON.elements JSON.members].

Lemma depth_enough (d : nat) :
  (forall s v r, JSON.value d s = Some (v, r) ->
     (List.length r < List.length s)%nat
     /\ forall d', (2 * List.length s <= d' + 2 * List.length r + 1)%nat ->
                   JSON.value d' s = Some (v, r))
  /\ (forall acc s v r, JSON.elements d acc s = Some (v, r) ->
        (List.length r + 2 <= List.length s)%nat
        /\ forall d', (2 * List.length s <= d' + 2 * List.length r + 2)%nat ->
                      JSON.elements d' acc s = Some (v, r))
  /\ (forall acc s v r, JSON.members d acc s = Some (v, r) ->
        (List.length r + 2 <= List.length s)%nat
        /\ forall d', (2 * List.length s <= d' + 2 * List.length r + 2)%nat ->
                      JSON.members d' acc s = Some (v, r)).
Proof.
  induction d as [|d [IHv [IHe IHm]]]; [repeat split; discriminate|].
  split; [|split].
  - (* a value *)
    intros s v r H. cbn [JSON.value] in H.
    destruct (JSON.skip_ws s) as [|c r0] eqn:Ews; [discriminate H|].
    pose proof (skip_ws_cons _ Ews) as L0.
    destruct (N.eqb c 123) eqn:E1.
    { destruct (JSON.skip_ws r0) as [|c' r'] eqn:Ews'; [discriminate H|].
      pose proof (skip_ws_cons _ Ews') as L1.
      destruct (N.eqb c' 125) eqn:E2.
      - injection H as <- <-. split; [lia|]. enter d'. now rewrite Ews, E1, Ews', E2.
      - apply IHm in H as [L K]. split; [lia|]. enter d'. rewrite Ews, E1, Ews', E2.
        apply K. lia. }
    destruct (N.eqb c 91) eqn:E3.
    { destruct (JSON.skip_ws r0) as [|c' r'] eqn:Ews'; [discriminate H|].
      pose proof (skip_ws_cons _ Ews') as L1.
      destruct (N.eqb c' 93) eqn:E4.
      - injection H as <- <-. split; [lia|]. enter d'.
        now rewrite Ews, E1, E3, Ews', E4.
      - apply IHe in H as [L K]. split; [lia|]. enter d'.
        rewrite Ews, E1, E3, Ews', E4. apply K. lia. }
    assert (List.length r < List.length s)%nat as L.
    { destruct (N.eqb c 34).
      { destruct (JSON.string_chars r0) as [[str r']|] eqn:Es; [|discriminate H].
        injection H as _ <-. apply string_chars_length in Es. lia. }
      assert (List.length r < List.length (c :: r0))%nat; [|cbn in *; lia].
      destruct (N.eqb c 116); [eapply keyword_length; [|exact H]; discriminate|].
      destruct (N.eqb c 102); [eapply keyword_length; [|exact H]; discriminate|].
      destruct (N.eqb c 110); [eapply keyword_length; [|exact H]; discriminate|].
      destruct (JSON.number (c :: r0)) as [[x r']|] eqn:En; [|discriminate H].
      injection H as _ <-. now apply number_length in En. }
    split; [exact L|]. enter d'. now rewrite Ews, E1, E3.
  - (* the elements of an array *)
    intros acc s v r H. cbn [JSON.elements] in H.
    destruct (JSON.value d s) as [[v1 r1]|] eqn:Ev; [|discriminate H].
    destruct (IHv _ _ _ Ev) as [L1 K1].
    destruct (JSON.skip_ws r1) as [|c r2] eqn:Ews; [discriminate H|].
    pose proof (skip_ws_cons _ Ews) as L2.
    destruct (N.eqb c 44) eqn:E1.
    { apply IHe in H as [L K]. split; [lia|]. enter d'.
      rewrite (K1 d') by lia. rewrite Ews, E1. apply K. lia. }
    destruct (N.eqb c 93) eqn:E2; [|discriminate H].
    injection H as <- <-. split; [lia|]. enter d'.
    rewrite (K1 d') by lia. now rewrite Ews, E1, E2.
  - (* the members of an object *)
    intros acc s v r H. cbn [JSON.members] in H.
    destruct (JSON.skip_ws s) as [|c r0] eqn:Ews0; [discriminate H|].
    pose proof (skip_ws_cons _ Ews0) as L0.
    destruct (N.eqb c 34) eqn:E0; [|discriminate H].
    destruct (JSON.string_chars r0) as [[k r1]|] eqn:Es; [|discriminate H].
    pose proof (string_chars_length _ Es) as Ls.
    destruct (JSON.skip_ws r1) as [|c1 r2] eqn:Ews1; [discriminate H|].
    pose proof (skip_ws_cons _ Ews1) as L1.
    destruct (N.eqb c1 58) eqn:E1; [|discriminate H].
    destruct (JSON.value d r2) as [[v3 r3]|] eqn:Ev; [|discriminate H].
    destruct (IHv _ _ _ Ev) as [L3 K3].
    destruct (JSON.skip_ws r3) as [|c3 r4] eqn:Ews3; [discriminate H|].
    pose proof (skip_ws_cons _ Ews3) as L4.
    destruct (N.eqb c3 44) eqn:E3.
    { apply IHm in H as [L K]. split; [lia|]. enter d'.
      rewrite Ews0, E0, Es, Ews1, E1. rewrite (K3 d') by lia.
      rewrite Ews3, E3. apply K. lia. }
    destruct (N.eqb c3 125) eqn:E4; [|discriminate H].
    injection H as <- <-. split; [lia|]. enter d'.
    rewrite Ews0, E0, Es, Ews1, E1. rewrite (K3 d') by lia.
    now rewrite Ews3, E3, E4.
Qed.

(** a deeper bound changes nothing to what [JSON.parse] returns *)
Lemma parse_depth (text : jsstring) (d : nat) :
  (2 * List.length text + 2 <= d)%nat ->
  JSON.value d text = JSON.value (2 * List.length text + 2) text.
Proof.
  intros Hd.
  destruct (JSON.value d text) as [[v r]|] eqn:E.
  - destruct (depth_enough d) as [K _]. destruct (K _ _ _ E) as [L K'].
    symmetry. apply K'. lia.
  - destruct (JSON.value (2 * List.length text + 2) text) as [[v r]|] eqn:E'; [|reflexivity].
    destruct (depth_enough (2 * List.length text + 2)) as [K _].
    destruct (K _ _ _ E') as [L K']. rewrite K' in E by lia. discriminate E.
Qed.

End Depth.

(* ================================================================== *)
(** * Lines and chunks *)
(* ================================================================== *)

Section Lines.

Lemma last_cons {A} (l : list A) (x d : A) : last (x :: l) d = last l x.
Proof.
  revert x d. induction l as [|y l IH]; intros x d; [reflexivity|].
  change (last (x :: y :: l) d) with (last (y :: l) d).
  now rewrite !IH.
Qed.

Lemma pop_cons_cons {A} (x y : A) (l : list A) :
  pop (x :: y :: l) = (fst (pop (y :: l)), x :: snd (pop (y :: l))).
Proof.
  unfold pop. cbn [fst snd]. f_equal.
  now rewrite last_cons.
Qed.

Lemma pop_app {A} (xs ys : list A) :
  ys <> [] -> pop (xs ++ ys) = (fst (pop ys), xs ++ snd (pop ys)).
Proof.
  intros Hys. destruct ys as [|y ys]; [contradiction|clear Hys].
  induction xs as [|x xs IH].
  { cbn [app]. generalize (pop (y :: ys)). now intros []. }
  destruct xs as [|x' xs]; cbn [app] in *.
  - now rewrite pop_cons_cons.
  - now rewrite pop_cons_cons, IH.
Qed.

Lemma split_LF_not_nil (s : jsstring) : split_LF s <> [].
Proof.
  destruct s as [|c s]; cbn; [discriminate|].
  destruct (N.eqb c LF); [discriminate|].
  destruct (split_LF s); discriminate.
Qed.

Lemma or_empty_Some (l : jsstring) : or_empty (Some l) = l.
Proof. now destruct l. Qed.

(** the fields of [a ++ b]: the lines that [a] completes, then the fields
    of what [a] leaves followed by [b] *)
Lemma split_LF_app (a b : jsstring) :
  split_LF (a ++ b) = complete_lines a ++ split_LF (partial_line a ++ b).
Proof.
  unfold complete_lines, partial_line.
  induction a as [|c a IH]; [reflexivity|].
  cbn [app split_LF].
  pose proof (split_LF_not_nil a) as Ha.
  destruct (split_LF a) as [|l0 ls0] eqn:Ea; [contradiction|clear Ha].
  destruct (N.eqb c LF) eqn:Ec.
  - rewrite pop_cons_cons. cbn [fst snd app]. now rewrite IH.
  - rewrite IH. destruct ls0 as [|l1 ls1].
    + cbn [pop last removelast fst snd app]. rewrite !or_empty_Some.
      cbn [app split_LF]. now rewrite Ec.
    + rewrite !pop_cons_cons. cbn [fst snd app]. reflexivity.
Qed.

Lemma complete_lines_app (a b : jsstring) :
  complete_lines (a ++ b) = complete_lines a ++ complete_lines (partial_line a ++ b).
Proof.
  unfold complete_lines at 1. rewrite split_LF_app, pop_app by apply split_LF_not_nil.
  reflexivity.
Qed.

Lemma partial_line_app (a b : jsstring) :
  partial_line (a ++ b) = partial_line (partial_line a ++ b).
Proof.
  unfold partial_line at 1. rewrite split_LF_app, pop_app by apply split_LF_not_nil.
  reflexivity.
Qed.

Lemma pop_split_LF (s : jsstring) :
  pop (split_LF s) = (fst (pop (split_LF s)), complete_lines s).
Proof. unfold complete_lines. now destruct (pop (split_LF s)). Qed.

(** what is left after the last line feed holds no line *)
Lemma complete_lines_partial_line (s : jsstring) :
  complete_lines (partial_line s) = [].
Proof.
  unfold complete_lines, partial_line.
  induction s as [|c s IH]; [reflexivity|].
  cbn [split_LF].
  pose proof (split_LF_not_nil s) as Hs.
  destruct (split_LF s) as [|l0 ls0] eqn:Es; [contradiction|clear Hs].
  destruct (N.eqb c LF) eqn:Ec.
  - rewrite pop_cons_cons. cbn [fst]. exact IH.
  - destruct ls0 as [|l1 ls1].
    + cbn [pop last removelast fst snd] in *. rewrite or_empty_Some in *.
      cbn [split_LF]. rewrite Ec.
      pose proof (split_LF_not_nil l0) as Hl.
      destruct (split_LF l0) as [|m0 ms0]; [contradiction|].
      destruct ms0; [reflexivity|].
      rewrite pop_cons_cons in IH. discriminate IH.
    + rewrite pop_cons_cons. cbn [fst]. rewrite pop_cons_cons in IH. exact IH.
Qed.

End Lines.

(* ================================================================== *)
(** * The streaming decoder *)
(* ================================================================== *)

Section Decoder.

(** the decoder reads a chunk as it reads its two halves in turn *)
Lemma decode_app (st : TextDecoder.state) (a b : list Byte.byte) :
  TextDecoder.decode st (a ++ b) =
  let (st1, o1) := TextDecoder.decode st a in
  let (st2, o2) := TextDecoder.decode st1 b in
  (st2, o1 ++ o2).
Proof.
  revert st. induction a as [|x a IH]; intros st; cbn [app TextDecoder.decode].
  - now destruct (TextDecoder.decode st b).
  - destruct (TextDecoder.step st x) as [st1 o1]. rewrite IH.
    destruct (TextDecoder.decode st1 a) as [st2 o2].
    destruct (TextDecoder.decode st2 b) as [st3 o3].
    now rewrite app_assoc.
Qed.

Lemma for_lines_app (l1 l2 : list jsstring) (progress : Progress) :
  for_lines (l1 ++ l2) progress =
  match for_lines l1 progress with
  | (Return, progress') => (Return, progress')
  | (Continue, progress') => for_lines l2 progress'
  end.
Proof.
  revert progress. induction l1 as [|l l1 IH]; intros progress; [reflexivity|].
  cbn [app for_lines]. destruct (line_body l progress) as [[|] progress']; auto.
Qed.

(** one turn of the loop, when the token is not cancelled and a chunk
    arrives *)
Lemma read_loop_chunk token polls value reader decoder buffer progress :
  token polls = false ->
  read_loop token polls (Chunk value :: reader) decoder buffer progress =
  let text := buffer ++ snd (TextDecoder.decode decoder value) in
  match for_lines (complete_lines text) progress with
  | (Return, progress') => (Normal, progress')
  | (Continue, progress') =>
      read_loop token (S polls) reader (fst (TextDecoder.decode decoder value))
                (partial_line text) progress'
  end.
Proof.
  intros Htoken. cbn [read_loop]. rewrite Htoken.
  destruct (TextDecoder.decode decoder value) as [decoder' text]. cbn [fst snd].
  rewrite pop_split_LF. unfold partial_line. reflexivity.
Qed.

(** with a token that is never cancelled and a body that never fails, the
    loop runs the body of [for] on the complete lines of the text, in
    their order *)
Lemma read_loop_chunks chunks : forall polls decoder buffer progress,
  complete_lines buffer = [] ->
  read_loop never polls (List.map Chunk chunks) decoder buffer progress =
  (Normal,
   snd (for_lines
          (complete_lines (buffer ++ snd (TextDecoder.decode decoder (List.concat chunks))))
          progress)).
Proof.
  induction chunks as [|value chunks IH]; intros polls decoder buffer progress Hbuffer.
  - cbn. now rewrite app_nil_r, Hbuffer.
  - cbn [List.map List.concat]. rewrite read_loop_chunk by reflexivity. cbv zeta.
    rewrite decode_app.
    destruct (TextDecoder.decode decoder value) as [decoder1 text1]. cbn [fst snd].
    specialize (IH (S polls) decoder1 (partial_line (buffer ++ text1))).
    destruct (TextDecoder.decode decoder1 (List.concat chunks)) as [decoder2 text2].
    cbn [snd] in *.
    rewrite app_assoc, (complete_lines_app (buffer ++ text1) text2), for_lines_app.
    destruct (for_lines (complete_lines (buffer ++ text1)) progress) as [[|] progress'].
    + apply IH, complete_lines_partial_line.
    + reflexivity.
Qed.

Lemma processStreamingResponse_chunks chunks progress :
  processStreamingResponse (List.map Chunk chunks) progress never =
  (Normal, snd (for_lines (complete_lines (decoded (List.concat chunks))) progress)).
Proof.
  unfold processStreamingResponse. now rewrite read_loop_chunks.
Qed.

(** a token that is never cancelled is not counted *)
Lemma read_loop_never reader : forall polls polls' decoder buffer progress,
  read_loop never polls reader decoder buffer progress =
  read_loop never polls' reader decoder buffer progress.
Proof.
  induction reader as [|[value|reason] reader IH]; intros; cbn; try reflexivity.
  destruct (TextDecoder.decode decoder value) as [decoder' text].
  destruct (pop (split_LF (buffer ++ text))) as [popped lines].
  destruct (for_lines lines progress) as [[|] progress']; auto.
Qed.

End Decoder.

Lemma jsstring_eqb_eq (a b : jsstring) : jsstring_eqb a b = true <-> a = b.
Proof.
  revert b. induction a as [|c a IH]; intros [|d b]; cbn; try easy.
  rewrite andb_true_iff, N.eqb_eq, IH. split; [intros [-> ->]|intros [= -> ->]]; auto.
Qed.

Lemma jsstring_eqb_neq (a b : jsstring) : a <> b -> jsstring_eqb a b = false.
Proof.
  intros H. destruct (jsstring_eqb a b) eqn:E; [|reflexivity].
  now apply jsstring_eqb_eq in E.
Qed.

Lemma startsWith_app (p s : jsstring) : startsWith (p ++ s) p = true.
Proof. induction p as [|c p IH]; cbn; [reflexivity|]. now rewrite N.eqb_refl. Qed.

Section Events.

Lemma line_body_done (progress : Progress) :
  line_body (lit "data: [DONE]") progress = (Return, progress).
Proof. reflexivity. Qed.

(** a line that carries no valid JSON changes nothing *)
Lemma line_body_malformed (payload : jsstring) (progress : Progress) :
  payload <> lit "[DONE]" -> JSON.parse payload = None ->
  line_body (lit "data: " ++ payload) progress = (Continue, progress).
Proof.
  intros Hdone Hparse. unfold line_body.
  rewrite startsWith_app. cbn [negb].
  change (slice (lit "data: " ++ payload) 6) with payload.
  now rewrite (jsstring_eqb_neq Hdone), Hparse.
Qed.

(** nothing is added to the sink *)
Ltac unchanged := exists []; symmetry; apply app_nil_r.

(** the body of the loop adds text parts only *)
Lemma line_body_texts (line : jsstring) (progress : Progress) :
  exists texts,
    snd (line_body line progress) = progress ++ List.map LanguageModelTextPart texts.
Proof.
  unfold line_body.
  destruct (startsWith line (lit "data: ")); cbn [negb]; [|unchanged].
  destruct (jsstring_eqb (slice line 6) (lit "[DONE]")); [unchanged|].
  destruct (JSON.parse (slice line 6)) as [parsed|]; [|unchanged].
  destruct (truthy _); [|unchanged].
  destruct (String_of _) as [text|]; [|unchanged].
  now exists [text].
Qed.

Lemma for_lines_texts (lines : list jsstring) : forall progress,
  exists texts,
    snd (for_lines lines progress) = progress ++ List.map LanguageModelTextPart texts.
Proof.
  induction lines as [|line lines IH]; intros progress.
  - unchanged.
  - cbn [for_lines]. destruct (line_body_texts line progress) as [texts1 H1].
    destruct (line_body line progress) as [[|] progress']; cbn [snd] in *.
    + destruct (IH progress') as [texts2 H2]. exists (texts1 ++ texts2).
      now rewrite H2, H1, map_app, app_assoc.
    + now exists texts1.
Qed.

Lemma read_loop_texts token reader : forall polls decoder buffer progress,
  exists texts,
    snd (read_loop token polls reader decoder buffer progress) =
    progress ++ List.map LanguageModelTextPart texts.
Proof.
  induction reader as [|[value|reason] reader IH]; intros; cbn [read_loop];
    destruct (token polls); try unchanged.
  destruct (TextDecoder.decode decoder value) as [decoder' text].
  destruct (pop (split_LF (buffer ++ text))) as [popped lines].
  destruct (for_lines_texts lines progress) as [texts1 H1].
  destruct (for_lines lines progress) as [[|] progress']; cbn [snd] in *.
  - destruct (IH (S polls) decoder' (or_empty popped) progress') as [texts2 H2].
    exists (texts1 ++ texts2). now rewrite H2, H1, map_app, app_assoc.
  - now exists texts1.
Qed.

Lemma tool_calls_texts (progress : Progress) (texts : list jsstring) :
  tool_calls (progress ++ List.map LanguageModelTextPart texts) = tool_calls progress.
Proof.
  unfold tool_calls. rewrite filter_app.
  replace (filter is_tool_call_part (List.map LanguageModelTextPart texts))
    with (@nil LanguageModelPart); [apply app_nil_r|].
  induction texts as [|text texts IH]; [reflexivity|exact IH].
Qed.

End Events.

(** C1 (as amended): the streaming decoder reports no tool-invocation
    part.  Whatever the body of the response and the token, what
    [processStreamingResponse] leaves in the sink is what the sink held
    followed by text parts only, so that the tool-invocation parts of
    the sink are those it held before: the tool-call fragments and the
    finish signal of an event are parsed with the event and then left
    aside, and a tool call yields no tool-invocation part, whether its
    arguments come in one event or split over several.  Which events
    yield a text part is not stated here. *)
Theorem streaming_reports_no_tool_call
    (responseBody : ReadableStream) (progress : Progress) (token : CancellationToken) :
  (exists texts,
     snd (processStreamingResponse responseBody progress token) =
     progress ++ List.map LanguageModelTextPart texts)
  /\ tool_calls (snd (processStreamingResponse responseBody progress token)) =
     tool_calls progress.
Proof.
  destruct (read_loop_texts token responseBody 0 TextDecoder.init [] progress)
    as [texts H].
  split; [now exists texts|].
  unfold processStreamingResponse. rewrite H. apply tool_calls_texts.
Qed.

(** C1 (as stated) fails: the tool call [lookup] whose arguments arrive
    in two delta events with index 0, followed by the finish signal,
    yields no part at all, where the claim has exactly one
    tool-invocation part; nor does the same call yield a part when its
    arguments come in one event.  The events are valid JSON and carry
    the fragments. *)
Lemma tool_call_split_yields_no_part :
  Sample.delta_tool_calls Sample.fragment1 <> None
  /\ Sample.delta_tool_calls Sample.fragment2 <> None
  /\ JSON.parse (q Sample.finish) <> None
  /\ snd (processStreamingResponse [Chunk Sample.tool_call_split] [] never) = []
  /\ snd (processStreamingResponse [Chunk Sample.tool_call_whole] [] never) = []
  /\ List.length (tool_calls (snd (processStreamingResponse
                                     [Chunk Sample.tool_call_split] [] never))) <> 1%nat.
Proof.
  repeat split; try (vm_compute; reflexivity); vm_compute; discriminate.
Qed.

(** the stream of the specification: two text parts, [Hel] then [lo],
    and no tool part *)
Example hello_stream :
  processStreamingResponse [Chunk Sample.hello] [] never =
  (Normal, [LanguageModelTextPart (lit "Hel"); LanguageModelTextPart (lit "lo")]).
Proof. vm_compute. reflexivity. Qed.

(** C2: chunk-boundary invariance.  However the bytes of a stream are
    split into the chunks that the reads deliver, the decoder reports the
    same parts as when the whole stream comes in one chunk; and these
    are the parts of the complete lines of the text, taken in order: what
    follows the last line feed waits in the buffer and is not parsed. *)
Theorem chunk_boundary_invariance (chunks : list (list Byte.byte)) (progress : Progress) :
  processStreamingResponse (List.map Chunk chunks) progress never =
  processStreamingResponse [Chunk (List.concat chunks)] progress never
  /\ processStreamingResponse (List.map Chunk chunks) progress never =
     (Normal, snd (for_lines (complete_lines (decoded (List.concat chunks))) progress)).
Proof.
  split; [|apply processStreamingResponse_chunks].
  change [Chunk (List.concat chunks)] with (List.map Chunk [List.concat chunks]).
  rewrite !processStreamingResponse_chunks. cbn [List.concat]. now rewrite app_nil_r.
Qed.

(** C3: the end sentinel.  When the lines that a read completes hold the
    line [data: [DONE]], the loop runs the lines before it and then
    [processStreamingResponse] returns normally: the lines after it in
    the same array and the reads to come are left alone. *)
Theorem done_sentinel_stops token polls value rest decoder buffer progress pre post :
  token polls = false ->
  complete_lines (buffer ++ snd (TextDecoder.decode decoder value)) =
    pre ++ lit "data: [DONE]" :: post ->
  read_loop token polls (Chunk value :: rest) decoder buffer progress =
  (Normal, snd (for_lines pre progress)).
Proof.
  intros Htoken Hlines. rewrite read_loop_chunk by exact Htoken. cbv zeta.
  rewrite Hlines, for_lines_app.
  destruct (for_lines pre progress) as [[|] progress']; [|reflexivity].
  cbn [for_lines]. now rewrite line_body_done.
Qed.

(** an instance: a line and a chunk that follow the sentinel are not
    decoded *)
Lemma done_sentinel_stops_witness :
  processStreamingResponse
    [Chunk (Sample.hello
            ++ Sample.line "data: {'choices':[{'delta':{'content':'late'}}]}");
     Chunk (Sample.line "data: {'choices':[{'delta':{'content':'later'}}]}")]
    [] never =
  (Normal, [LanguageModelTextPart (lit "Hel"); LanguageModelTextPart (lit "lo")]).
Proof.
  unfold processStreamingResponse.
  apply (@done_sentinel_stops never 0%nat _ _ TextDecoder.init [] []
           [q "data: {'choices':[{'delta':{'content':'Hel'}}]}";
            q "data: {'choices':[{'delta':{'content':'lo'}}]}"]
           [q "data: {'choices':[{'delta':{'content':'late'}}]}"]).
  - reflexivity.
  - vm_compute. reflexivity.
Defined.

(** C4: a malformed event.  When a line of the stream is an event whose
    payload is not valid JSON (and is not the end sentinel), the decoder
    reports exactly what it reports for the stream without that line: the
    events before it and after it are decoded as if it were not there,
    and the call returns normally. *)
Theorem malformed_event_skipped chunks progress pre payload post :
  payload <> lit "[DONE]" ->
  JSON.parse payload = None ->
  complete_lines (decoded (List.concat chunks)) = pre ++ (lit "data: " ++ payload) :: post ->
  processStreamingResponse (List.map Chunk chunks) progress never =
  (Normal, snd (for_lines (pre ++ post) progress)).
Proof.
  intros Hdone Hparse Hlines.
  rewrite processStreamingResponse_chunks, Hlines, !for_lines_app.
  destruct (for_lines pre progress) as [[|] progress']; [|reflexivity].
  cbn [for_lines]. now rewrite line_body_malformed.
Qed.

(** an instance: a truncated event between two text events *)
Lemma malformed_event_skipped_witness :
  processStreamingResponse
    [Chunk (Sample.line "data: {'choices':[{'delta':{'content':'Hel'}}]}");
     Chunk (Sample.line "data: {'choices':[{'delta':{'content':");
     Chunk (Sample.line "data: {'choices':[{'delta':{'content':'lo'}}]}")]
    [] never =
  (Normal, [LanguageModelTextPart (lit "Hel"); LanguageModelTextPart (lit "lo")]).
Proof.
  apply (@malformed_event_skipped
           [Sample.line "data: {'choices':[{'delta':{'content':'Hel'}}]}";
            Sample.line "data: {'choices':[{'delta':{'content':";
            Sample.line "data: {'choices':[{'delta':{'content':'lo'}}]}"]
           []
           [q "data: {'choices':[{'delta':{'content':'Hel'}}]}"]
           (q "{'choices':[{'delta':{'content':")
           [q "data: {'choices':[{'delta':{'content':'lo'}}]}"]).
  - vm_compute. discriminate.
  - vm_compute. reflexivity.
  - vm_compute. reflexivity.
Defined.

Section Cancellation.

Lemma read_loop_cancelled token reader decoder buffer progress polls :
  token polls = true ->
  read_loop token polls reader decoder buffer progress = (Normal, progress).
Proof. intros H. destruct reader as [|[|]]; cbn; now rewrite H. Qed.

(** the token is read once before each read: the loop that sees it
    cancelled at its [k]-th turn has done what [k] reads allow *)
Lemma read_loop_cancelled_at token k : forall polls reader decoder buffer progress,
  (forall i, (i < k)%nat -> token (polls + i)%nat = false) ->
  token (polls + k)%nat = true ->
  read_loop token polls reader decoder buffer progress =
  read_loop never polls (firstn k reader) decoder buffer progress.
Proof.
  induction k as [|k IH]; intros polls reader decoder buffer progress Hbefore Hat.
  - rewrite Nat.add_0_r in Hat. rewrite read_loop_cancelled by exact Hat.
    now destruct reader.
  - assert (token polls = false) as H0.
    { rewrite <- (Nat.add_0_r polls). apply Hbefore. lia. }
    destruct reader as [|[value|reason] reader]; cbn [firstn read_loop]; rewrite H0;
      cbn [never]; try reflexivity.
    destruct (TextDecoder.decode decoder value) as [decoder' text].
    destruct (pop (split_LF (buffer ++ text))) as [popped lines].
    destruct (for_lines lines progress) as [[|] progress']; [|reflexivity].
    apply IH.
    + intros i Hi. replace (S polls + i)%nat with (polls + S i)%nat by lia.
      apply Hbefore. lia.
    + now replace (S polls + k)%nat with (polls + S k)%nat by lia.
Qed.

Lemma read_loop_never_normal reader : forall polls decoder buffer progress,
  forallb is_chunk reader = true ->
  fst (read_loop never polls reader decoder buffer progress) = Normal.
Proof.
  induction reader as [|[value|reason] reader IH]; intros polls decoder buffer progress H;
    cbn in *; try easy.
  destruct (TextDecoder.decode decoder value) as [decoder' text].
  destruct (pop (split_LF (buffer ++ text))) as [popped lines].
  destruct (for_lines lines progress) as [[|] progress']; auto.
Qed.

End Cancellation.

(** C5: cancellation.  The token is read before every read.  When it is
    first seen cancelled before the read of rank [k], the decoder has
    done exactly what it does, uncancelled, with a stream that ends after
    [k] reads: the parts of these reads are reported, nothing more is
    read, and the call returns normally unless one of these reads
    failed. *)
Theorem cancellation_stops_reading responseBody progress token k :
  (forall i, (i < k)%nat -> token i = false) ->
  token k = true ->
  processStreamingResponse responseBody progress token =
  processStreamingResponse (firstn k responseBody) progress never
  /\ (forallb is_chunk (firstn k responseBody) = true ->
      fst (processStreamingResponse responseBody progress token) = Normal).
Proof.
  intros Hbefore Hat.
  assert (processStreamingResponse responseBody progress token =
          processStreamingResponse (firstn k responseBody) progress never) as E.
  { unfold processStreamingResponse. apply read_loop_cancelled_at; assumption. }
  split; [exact E|].
  intros Hchunks. rewrite E. now apply read_loop_never_normal.
Qed.

(** an instance: a token cancelled after the first read *)
Lemma cancellation_stops_reading_witness :
  processStreamingResponse
    [Chunk (Sample.line "data: {'choices':[{'delta':{'content':'Hel'}}]}");
     Chunk (Sample.line "data: {'choices':[{'delta':{'content':'lo'}}]}")]
    [] (fun polls => Nat.eqb polls 1) =
  (Normal, [LanguageModelTextPart (lit "Hel")]).
Proof.
  pose proof (@cancellation_stops_reading
                [Chunk (Sample.line "data: {'choices':[{'delta':{'content':'Hel'}}]}");
                 Chunk (Sample.line "data: {'choices':[{'delta':{'content':'lo'}}]}")]
                [] (fun polls => Nat.eqb polls 1) 1%nat) as H.
  destruct H as [E _].
  - intros i Hi. assert (i = 0%nat) as -> by lia. reflexivity.
  - reflexivity.
  - rewrite E. vm_compute. reflexivity.
Defined.

(** C10: an event without text.  For an event that parses, a text part
    is reported only if the content of the delta of its first choice is
    truthy: when the content is absent or is the empty string, the sink
    is left as it is; and when it is truthy, the part reported is the
    text of the content. *)
Theorem empty_content_reports_nothing line parsed progress :
  startsWith line (lit "data: ") = true ->
  JSON.parse (slice line 6) = Some parsed ->
  (delta_content parsed = None \/ delta_content parsed = Some (JStr []) ->
   line_body line progress = (Continue, progress))
  /\ (truthy (delta_content parsed) = false ->
      line_body line progress = (Continue, progress))
  /\ (snd (line_body line progress) <> progress ->
      truthy (delta_content parsed) = true)
  /\ (forall text, truthy (delta_content parsed) = true ->
      String_of (delta_content parsed) = Some text ->
      line_body line progress = (Continue, report progress (LanguageModelTextPart text))).
Proof.
  intros Hprefix Hparse.
  assert (jsstring_eqb (slice line 6) (lit "[DONE]") = false) as Hdone.
  { destruct (jsstring_eqb (slice line 6) (lit "[DONE]")) eqn:E; [|reflexivity].
    apply jsstring_eqb_eq in E. rewrite E in Hparse. vm_compute in Hparse. discriminate. }
  assert (line_body line progress =
          if truthy (delta_content parsed) then
            match String_of (delta_content parsed) with
            | Some text => (Continue, report progress (LanguageModelTextPart text))
            | None => (Continue, progress)
            end
          else (Continue, progress)) as E.
  { unfold line_body. rewrite Hprefix, Hdone, Hparse. reflexivity. }
  assert (truthy (delta_content parsed) = false ->
          line_body line progress = (Continue, progress)) as Hfalsy.
  { intros Hfalsy. now rewrite E, Hfalsy. }
  repeat split.
  - intros [H|H]; apply Hfalsy; now rewrite H.
  - exact Hfalsy.
  - intros Hchanged. destruct (truthy (delta_content parsed)); [reflexivity|].
    exfalso. apply Hchanged. now rewrite Hfalsy.
  - intros text Htruthy Htext. now rewrite E, Htruthy, Htext.
Qed.

(** an instance: an event whose content is the empty string *)
Lemma empty_content_reports_nothing_witness :
  line_body (q "data: {'choices':[{'delta':{'content':''}}]}") [] = (Continue, []).
Proof.
  refine (proj1 (@empty_content_reports_nothing
                   (q "data: {'choices':[{'delta':{'content':''}}]}")
                   (JObj [(lit "choices",
                           JArr [JObj [(lit "delta",
                                        JObj [(lit "content", JStr [])])]])])
                   [] _ _) _).
  - vm_compute. reflexivity.
  - vm_compute. reflexivity.
  - right. vm_compute. reflexivity.
Defined.

(* ================================================================== *)
(** * The request *)
(* ================================================================== *)

(** C6 (as amended): the limit of output tokens.  The [max_tokens] of
    the request body is the smaller of [requested || 4096] and the output
    limit of the model, where [requested] is the [max_tokens] of the
    options of the caller: 4096 stands for a value that is absent and
    also for 0; any other value is taken as it is, and the result never
    exceeds the limit of the model.  The body sent carries that number in
    its field [max_tokens]. *)
Theorem max_tokens_clamped utils model messages options :
  let requested := opt (modelOptions options) max_tokens in
  let body := requestBody utils model messages options in
  body_max_tokens body =
    Z.min (match requested with
           | None => 4096%Z
           | Some 0%Z => 4096%Z
           | Some n => n
           end) (maxOutputTokens model)
  /\ (body_max_tokens body <= maxOutputTokens model)%Z
  /\ get (lit "max_tokens") (Some (RequestBody_json body)) =
     Some (JNum (Number.of_Z (body_max_tokens body))).
Proof.
  cbv zeta. split; [|split].
  - unfold requestBody, or_. cbn [body_max_tokens].
    destruct (opt (modelOptions options) max_tokens) as [[| |]|]; reflexivity.
  - unfold requestBody. cbn [body_max_tokens]. apply Z.le_min_r.
  - reflexivity.
Qed.

(** C6 (as stated) fails: with [max_tokens: 0] in the options and a
    model limit of 16000 the body has [max_tokens] 4096, where
    [min(requested ?? 4096, model.maxOutputTokens)] is 0. *)
Lemma max_tokens_zero_requested :
  body_max_tokens (requestBody Sample.utils Sample.model
                               [Sample.message "hi"] (Sample.options (Some 0%Z))) = 4096%Z
  /\ Spec.max_tokens (Some 0%Z) (maxOutputTokens Sample.model) = 0%Z
  /\ body_max_tokens (requestBody Sample.utils Sample.model
                                  [Sample.message "hi"] (Sample.options (Some 0%Z)))
     <> Spec.max_tokens (Some 0%Z) (maxOutputTokens Sample.model).
Proof. repeat split. vm_compute. discriminate. Qed.

(* ================================================================== *)
(** * The token estimators *)
(* ================================================================== *)

Section Estimators.

Lemma ceil_quarter_add (a b : nat) :
  (ceil_quarter (a + b) <= ceil_quarter a + ceil_quarter b)%Z.
Proof.
  unfold ceil_quarter. rewrite Nat2Z.inj_add.
  pose proof (Z.div_mod (Z.of_nat a + Z.of_nat b + 3) 4) as H1.
  pose proof (Z.div_mod (Z.of_nat a + 3) 4) as H2.
  pose proof (Z.div_mod (Z.of_nat b + 3) 4) as H3.
  pose proof (Z.mod_pos_bound (Z.of_nat a + Z.of_nat b + 3) 4) as B1.
  pose proof (Z.mod_pos_bound (Z.of_nat a + 3) 4) as B2.
  pose proof (Z.mod_pos_bound (Z.of_nat b + 3) 4) as B3.
  lia.
Qed.

Lemma ceil_quarter_nonneg (a : nat) : (0 <= ceil_quarter a)%Z.
Proof. unfold ceil_quarter. apply Z.div_pos; lia. Qed.

Lemma parts_tokens parts : forall total,
  fold_left part_tokens parts total =
  (total + sum (List.map (fun v => ceil_quarter (List.length v))
                         (text_values [{| role := User; content := parts |}])))%Z.
Proof.
  cbn [text_values flat_map content]. rewrite app_nil_r.
  induction parts as [|part parts IH]; intros total; cbn [fold_left flat_map].
  - cbn. lia.
  - rewrite IH. unfold sum.
    destruct part; cbn [part_tokens app List.map fold_right]; lia.
Qed.

Lemma text_values_cons m msgs :
  text_values (m :: msgs) = text_values [m] ++ text_values msgs.
Proof. cbn [text_values flat_map]. now rewrite app_nil_r. Qed.

Lemma sum_app l1 l2 : sum (l1 ++ l2) = (sum l1 + sum l2)%Z.
Proof. unfold sum. induction l1 as [|x l1 IH]; cbn [app fold_right] in *; lia. Qed.

Lemma messages_tokens msgs : forall total,
  fold_left (fun total m => fold_left part_tokens (content m) total) msgs total =
  (total + sum (List.map (fun v => ceil_quarter (List.length v)) (text_values msgs)))%Z.
Proof.
  induction msgs as [|m msgs IH]; intros total; cbn [fold_left].
  - cbn. lia.
  - rewrite IH, parts_tokens, (text_values_cons m msgs), map_app, sum_app.
    destruct m as [r parts]. cbn [content].
    change (text_values [{| role := r; content := parts |}])
      with (text_values [{| role := User; content := parts |}]).
    now rewrite Z.add_assoc.
Qed.

Lemma ceil_quarter_concat (values : list jsstring) :
  (ceil_quarter (List.length (List.concat values)) <=
   sum (List.map (fun v => ceil_quarter (List.length v)) values))%Z.
Proof.
  induction values as [|v values IH]; cbn [List.concat List.map].
  - vm_compute. discriminate.
  - rewrite length_app.
    pose proof (ceil_quarter_add (List.length v) (List.length (List.concat values))).
    unfold sum in *. cbn [List.map fold_right]. lia.
Qed.

End Estimators.

(** C7 (as amended): the estimates.  The estimate of a list of messages
    is the sum, over the text parts of the messages, of the length of
    each part divided by 4 and rounded up; it is at least the total
    length of the text divided by 4 and rounded up.  The estimate of the
    tools is 0 when there is no array of tools, when the array is empty
    and when its serialization fails; otherwise it is the length of the
    serialized array divided by 4 and rounded up.  Both estimators always
    return a number. *)
Theorem token_estimates msgs tools :
  estimateMessagesTokens msgs =
    sum (List.map (fun v => ceil_quarter (List.length v)) (text_values msgs))
  /\ (Spec.estimateMessages msgs <= estimateMessagesTokens msgs)%Z
  /\ estimateToolTokens None = 0%Z
  /\ estimateToolTokens (Some []) = 0%Z
  /\ (JSON_stringify_tools tools = None -> estimateToolTokens (Some tools) = 0%Z)
  /\ (forall text, tools <> [] -> JSON_stringify_tools tools = Some text ->
      estimateToolTokens (Some tools) = ceil_quarter (List.length text)).
Proof.
  assert (estimateMessagesTokens msgs =
          sum (List.map (fun v => ceil_quarter (List.length v)) (text_values msgs))) as E.
  { unfold estimateMessagesTokens.
    change (fun (total : Z) (m : LanguageModelChatRequestMessage) =>
              fold_left (fun total0 part =>
                           match part with
                           | LanguageModelTextPart value =>
                               (total0 + ceil_quarter (List.length value))%Z
                           | _ => total0
                           end) (content m) total)
      with (fun total m => fold_left part_tokens (content m) total).
    now rewrite messages_tokens. }
  repeat split; try reflexivity.
  - exact E.
  - rewrite E. apply ceil_quarter_concat.
  - intros H. destruct tools; [reflexivity|]. cbn [estimateToolTokens]. now rewrite H.
  - intros text Hne H. destruct tools; [contradiction|].
    cbn [estimateToolTokens]. now rewrite H.
Qed.

(** an instance: a tool whose parameters cannot be serialized *)
Lemma token_estimates_witness :
  estimateToolTokens
    (Some [{| type_ := lit "function";
              function_ := {| function_name := lit "lookup";
                              function_description := None;
                              parameters := Some Unserializable |} |}]) = 0%Z.
Proof.
  refine (proj1 (proj2 (proj2 (proj2 (proj2 (@token_estimates [] _))))) _).
  vm_compute. reflexivity.
Defined.

(** C7 (as stated) fails: a message with the two text parts [a] and [b]
    is estimated at 2 tokens, where the total length of its text, 2,
    divided by 4 and rounded up is 1. *)
Lemma estimate_rounds_each_part :
  estimateMessagesTokens
    [{| role := User;
        content := [LanguageModelTextPart (lit "a"); LanguageModelTextPart (lit "b")] |}]
  = 2%Z
  /\ Spec.estimateMessages
       [{| role := User;
           content := [LanguageModelTextPart (lit "a"); LanguageModelTextPart (lit "b")] |}]
     = 1%Z.
Proof. split; vm_compute; reflexivity. Qed.

(* ================================================================== *)
(** * The entry point *)
(* ================================================================== *)

Section EntryPoint.

Variable utils : Utils.

(** a silent resolution of the configuration asks nothing and stores
    nothing *)
Lemma ensureConfig_silent secrets window :
  ensureConfig true secrets window =
  (fst (fst (ensureConfig true secrets window)), secrets, window).
Proof.
  unfold ensureConfig. cbn [negb]. rewrite !andb_false_r.
  now destruct (secrets_get (lit "litellm.baseUrl") secrets) as [[|c url]|].
Qed.

Lemma String_printable : forall v, printable v = true -> exists s, String_ v = Some s.
Proof.
  fix IH 1. intros [|b|x|s|l|o] H; cbn [String_]; eauto.
  - assert (exists ss,
              sequence (List.map (fun x => match x with
                                           | JNull => Some []
                                           | _ => String_ x
                                           end) l) = Some ss) as [ss Hss].
    { cbn [printable] in H. induction l as [|a l IHl]; [now exists []|].
      cbn [forallb] in H. apply andb_true_iff in H as [Ha Hl].
      destruct (IHl Hl) as [ss Hss]. destruct (IH a Ha) as [sa Hsa].
      cbn [List.map sequence]. rewrite Hss.
      destruct a; try rewrite Hsa; eauto. }
    rewrite Hss. eauto.
  - cbn [printable] in H. apply negb_true_iff in H. rewrite H. eauto.
Qed.

Lemma String_of_printable v :
  printable_value v = true -> exists s, String_of v = Some s.
Proof. destruct v as [j|]; cbn; [apply String_printable|eauto]. Qed.

Lemma provide_reset this secrets window fetch model messages options progress token :
  instance (provideLanguageModelChatResponse utils this secrets window fetch
              model messages options progress token) = reset this.
Proof.
  unfold provideLanguageModelChatResponse.
  destruct (ensureConfig true secrets window) as [[[config|] secrets'] window'];
    [|reflexivity].
  destruct (validateRequest utils messages); [reflexivity|].
  destruct (fetch _) as [e|response]; [reflexivity|].
  destruct (ok response); cbn [negb].
  - destruct (includes _ _); cbn [negb].
    + destruct (body response) as [responseBody|]; [|reflexivity].
      now destruct (processStreamingResponse responseBody progress token).
    + destruct (Response_json response) as [e|json_]; [reflexivity|].
      now destruct (String_of (response_text json_)).
  - now destruct (Response_text response).
Qed.

End EntryPoint.

(** C8 (as amended): a response that is not a stream.  When the content
    type of the response does not name an event stream and its body is a
    JSON document, the text is the content of the message of the first
    choice; when that is absent (undefined or null) it is the content of
    the other known shape; when both are absent it is the document
    printed with an indentation of 2.  Provided [String] converts this
    value (it converts every value in which no object has a property
    [toString]), exactly one text part is reported, with that string,
    and the call returns normally. *)
Theorem non_streaming_reports_text utils this secrets window fetch model messages options
    progress token config response json_ :
  fst (fst (ensureConfig true secrets window)) = Some config ->
  validateRequest utils messages = None ->
  fetch (chat_request utils (reset this) config model messages options) = inr response ->
  ok response = true ->
  includes (match content_type response with Some c => c | None => [] end)
           (lit "text/event-stream") = false ->
  Response_json response = inr json_ ->
  printable_value (response_text json_) = true ->
  let outcome := provideLanguageModelChatResponse utils this secrets window fetch
                   model messages options progress token in
  response_text json_ =
    (if negb (nullish (message_content json_)) then message_content json_
     else if negb (nullish (assistant_content json_)) then assistant_content json_
     else Some (JStr (JSON.stringify2 json_)))
  /\ exists text,
       String_of (response_text json_) = Some text
       /\ reported outcome = progress ++ [LanguageModelTextPart text]
       /\ settled outcome = Normal.
Proof.
  intros Hconfig Hvalid Hfetch Hok Htype Hjson Hprintable. cbv zeta. split.
  - unfold response_text, coalesce.
    fold (message_content json_). fold (assistant_content json_).
    destruct (nullish (message_content json_)); [|reflexivity].
    now destruct (nullish (assistant_content json_)).
  - destruct (String_of_printable _ Hprintable) as [text Htext].
    exists text. split; [exact Htext|].
    unfold provideLanguageModelChatResponse.
    rewrite ensureConfig_silent, Hconfig, Hvalid, Hfetch, Hok. cbn [negb].
    rewrite Htype. cbn [negb]. rewrite Hjson, Htext. split; reflexivity.
Qed.

(** an instance: the document of the specification yields the text [hi] *)
Lemma non_streaming_reports_text_witness :
  let outcome :=
    provideLanguageModelChatResponse Sample.utils Sample.used Sample.secrets []
      (Sample.backend (Sample.json_response "{'choices':[{'message':{'content':'hi'}}]}"))
      Sample.model [Sample.message "hello"] (Sample.options None) [] never in
  reported outcome = [LanguageModelTextPart (lit "hi")] /\ settled outcome = Normal.
Proof.
  cbv zeta.
  destruct (@non_streaming_reports_text Sample.utils Sample.used Sample.secrets []
              (Sample.backend (Sample.json_response "{'choices':[{'message':{'content':'hi'}}]}"))
              Sample.model [Sample.message "hello"] (Sample.options None) [] never
              {| baseUrl := lit "http://localhost:4000"; apiKey := lit "sk-1234" |}
              (Sample.json_response "{'choices':[{'message':{'content':'hi'}}]}")
              (JObj [(lit "choices",
                      JArr [JObj [(lit "message", JObj [(lit "content", JStr (lit "hi"))])]])]))
    as [_ [text [Htext [Hreported Hsettled]]]].
  - reflexivity.
  - reflexivity.
  - reflexivity.
  - reflexivity.
  - vm_compute. reflexivity.
  - vm_compute. reflexivity.
  - vm_compute. reflexivity.
  - split; [|exact Hsettled].
    rewrite Hreported. vm_compute in Htext. injection Htext as <-. reflexivity.
Defined.

(** C8 (as stated) fails: a response of type [text/plain] whose body is
    no JSON document makes [response.json()] fail, and a JSON document
    whose message content is an object with a property [toString] makes
    [String(text)] fail; either way the call is rejected with the error
    and no part is reported. *)
Lemma non_json_body_reports_nothing :
  let call response :=
    provideLanguageModelChatResponse Sample.utils Sample.fresh Sample.secrets []
      (Sample.backend response)
      Sample.model [Sample.message "hello"] (Sample.options None) [] never in
  includes (lit "text/plain") (lit "text/event-stream") = false
  /\ reported (call Sample.plain_response) = []
  /\ settled (call Sample.plain_response) = Throw SyntaxError
  /\ includes (lit "application/json") (lit "text/event-stream") = false
  /\ reported (call Sample.toString_response) = []
  /\ settled (call Sample.toString_response) = Throw TypeError
  /\ ~ (List.length (reported (call Sample.plain_response)) = 1%nat
        /\ settled (call Sample.plain_response) = Normal).
Proof.
  cbv zeta. repeat split; try (vm_compute; reflexivity).
  intros [H _]. vm_compute in H. discriminate.
Qed.

(** C9: the state of a turn.  Every call of the entry point starts by
    clearing the state of the turn, and nothing fills it afterwards: the
    instance that the call leaves is the instance it received with that
    state cleared, and the outcome of the call (the request sent, the
    parts reported, the way it settles) is the same for any two
    instances that differ in the state of a turn only. *)
Theorem turn_state_reset utils this previous secrets window fetch model messages options
    progress token :
  _chatEndpoints previous = _chatEndpoints this ->
  userAgent previous = userAgent this ->
  let outcome := provideLanguageModelChatResponse utils this secrets window fetch
                   model messages options progress token in
  instance outcome = reset this
  /\ turn_state_clear (instance outcome)
  /\ provideLanguageModelChatResponse utils previous secrets window fetch
       model messages options progress token = outcome.
Proof.
  intros Hendpoints Hagent. cbv zeta.
  assert (reset previous = reset this) as Hreset.
  { unfold reset. now rewrite Hendpoints, Hagent. }
  split; [apply provide_reset|]. split.
  - rewrite provide_reset. unfold turn_state_clear, reset. cbn. tauto.
  - unfold provideLanguageModelChatResponse. now rewrite Hreset.
Qed.

(** an instance: a used instance and a fresh one give the same outcome *)
Lemma turn_state_reset_witness :
  provideLanguageModelChatResponse Sample.utils Sample.used Sample.secrets []
    (Sample.backend (Sample.stream_response [Sample.hello]))
    Sample.model [Sample.message "hello"] (Sample.options None) [] never =
  provideLanguageModelChatResponse Sample.utils Sample.fresh Sample.secrets []
    (Sample.backend (Sample.stream_response [Sample.hello]))
    Sample.model [Sample.message "hello"] (Sample.options None) [] never.
Proof.
  refine (proj2 (proj2 (@turn_state_reset Sample.utils Sample.fresh Sample.used
                          Sample.secrets []
                          (Sample.backend (Sample.stream_response [Sample.hello]))
                          Sample.model [Sample.message "hello"] (Sample.options None)
                          [] never _ _))); reflexivity.
Defined.

(* ================================================================== *)
(** * Further properties of the streaming decoder *)
(* ================================================================== *)

Section Stream.

(** a buffer without a complete line is one field *)
Lemma split_LF_partial (b : jsstring) : complete_lines b = [] -> split_LF b = [b].
Proof.
  unfold complete_lines. induction b as [|c b IH]; [reflexivity|].
  cbn [split_LF]. pose proof (split_LF_not_nil b) as Hb.
  destruct (split_LF b) as [|l ls] eqn:Eb; [contradiction|clear Hb].
  destruct (N.eqb c LF).
  - rewrite pop_cons_cons. discriminate.
  - destruct ls as [|l' ls]; [|rewrite pop_cons_cons; discriminate].
    intros _. specialize (IH eq_refl). now injection IH as ->.
Qed.

Lemma partial_line_partial (b : jsstring) : complete_lines b = [] -> partial_line b = b.
Proof.
  intros H. unfold partial_line. rewrite (split_LF_partial _ H). cbn. apply or_empty_Some.
Qed.

(** a text without a line feed holds no complete line *)
Lemma complete_lines_no_LF (tail : jsstring) : ~ In LF tail -> complete_lines tail = [].
Proof.
  unfold complete_lines. induction tail as [|c tail IH]; intros H; [reflexivity|].
  cbn [split_LF]. destruct (N.eqb c LF) eqn:Ec.
  - apply N.eqb_eq in Ec. exfalso. apply H. now left.
  - assert (~ In LF tail) as H' by (intros K; apply H; now right).
    specialize (IH H'). pose proof (split_LF_not_nil tail) as Ht.
    destruct (split_LF tail) as [|l [|l' ls]]; [contradiction|reflexivity|].
    rewrite pop_cons_cons in IH. discriminate IH.
Qed.

(** and conversely *)
Lemma complete_lines_nil_no_LF (b : jsstring) : complete_lines b = [] -> ~ In LF b.
Proof.
  unfold complete_lines. induction b as [|c b IH]; [intros _ []|].
  cbn [split_LF]. pose proof (split_LF_not_nil b) as Hb.
  destruct (split_LF b) as [|l ls] eqn:Eb; [contradiction|clear Hb].
  destruct (N.eqb c LF) eqn:Ec.
  - rewrite pop_cons_cons. discriminate.
  - destruct ls as [|l' ls]; [|rewrite pop_cons_cons; discriminate].
    intros _ [Hc|Hin].
    + subst c. now rewrite N.eqb_refl in Ec.
    + now apply (IH eq_refl).
Qed.

(** the chunks of a stream, uncancelled, followed by whatever the next
    reads give *)
Lemma read_loop_chunks_then chunks rest : forall polls decoder buffer progress,
  complete_lines buffer = [] ->
  read_loop never polls (List.map Chunk chunks ++ rest) decoder buffer progress =
  let text := buffer ++ snd (TextDecoder.decode decoder (List.concat chunks)) in
  match for_lines (complete_lines text) progress with
  | (Return, progress') => (Normal, progress')
  | (Continue, progress') =>
      read_loop never 0 rest (fst (TextDecoder.decode decoder (List.concat chunks)))
                (partial_line text) progress'
  end.
Proof.
  induction chunks as [|value chunks IH]; intros polls decoder buffer progress Hbuffer.
  - cbn [List.map List.concat app TextDecoder.decode fst snd]. cbv zeta.
    rewrite app_nil_r, Hbuffer, (partial_line_partial _ Hbuffer). cbn [for_lines].
    apply read_loop_never.
  - cbn [List.map List.concat app]. rewrite read_loop_chunk by reflexivity. cbv zeta.
    rewrite decode_app.
    destruct (TextDecoder.decode decoder value) as [decoder1 text1]. cbn [fst snd].
    specialize (IH (S polls) decoder1 (partial_line (buffer ++ text1))).
    destruct (TextDecoder.decode decoder1 (List.concat chunks)) as [decoder2 text2].
    cbn [fst snd] in *. cbv zeta in IH.
    rewrite app_assoc, (complete_lines_app (buffer ++ text1) text2), for_lines_app.
    rewrite (partial_line_app (buffer ++ text1) text2).
    destruct (for_lines (complete_lines (buffer ++ text1)) progress) as [[|] progress'].
    + apply IH, complete_lines_partial_line.
    + reflexivity.
Qed.

(** the loop settles normally or with the failure of a read *)
Lemma read_loop_throw token reader : forall polls decoder buffer progress e,
  fst (read_loop token polls reader decoder buffer progress) = Throw e ->
  exists reason, e = Rejected reason /\ In (ReadFailure reason) reader.
Proof.
  induction reader as [|[value|reason] reader IH]; intros polls decoder buffer progress e;
    cbn [read_loop]; destruct (token polls); cbn [fst]; try discriminate.
  - destruct (TextDecoder.decode decoder value) as [decoder' text].
    destruct (pop (split_LF (buffer ++ text))) as [popped lines].
    destruct (for_lines lines progress) as [[|] progress']; cbn [fst]; [|discriminate].
    intros H. apply IH in H as [reason [-> Hin]]. exists reason. split; [reflexivity|].
    now right.
  - intros [= <-]. exists reason. split; [reflexivity|now left].
Qed.

(** what the body of the loop does, in terms of the text of the line *)
Lemma line_body_line_text (line : jsstring) (progress : Progress) :
  line_body line progress =
  if is_done line then (Return, progress)
  else (Continue,
        progress ++ List.map LanguageModelTextPart
                             (match line_text line with Some text => [text] | None => [] end)).
Proof.
  unfold line_body, is_done, line_text, delta_content.
  destruct (startsWith line (lit "data: ")); cbn [negb andb]; [|now rewrite app_nil_r].
  destruct (jsstring_eqb (slice line 6) (lit "[DONE]")); [reflexivity|].
  destruct (JSON.parse (slice line 6)) as [parsed|]; [|now rewrite app_nil_r].
  destruct (truthy _); [|now rewrite app_nil_r].
  destruct (String_of _) as [text|]; [reflexivity|now rewrite app_nil_r].
Qed.

Lemma for_lines_texts_of (lines : list jsstring) : forall progress,
  snd (for_lines lines progress) =
  progress ++ List.map LanguageModelTextPart (texts_of (before_done lines)).
Proof.
  induction lines as [|line lines IH]; intros progress.
  - cbn. now rewrite app_nil_r.
  - cbn [for_lines before_done]. rewrite line_body_line_text.
    destruct (is_done line).
    + cbn. now rewrite app_nil_r.
    + rewrite IH. unfold texts_of. cbn [flat_map]. now rewrite map_app, app_assoc.
Qed.

(** the value of the sentinel followed by anything is no JSON text *)
Lemma parse_done_suffix (w : jsstring) : JSON.parse (lit "[DONE]" ++ w) = None.
Proof.
  unfold JSON.parse.
  assert (exists d, (2 * List.length (lit "[DONE]" ++ w) + 2 = S (S (S d)))%nat) as [d ->].
  { rewrite length_app. cbn [lit List.length List.map list_ascii_of_string].
    exists (2 * List.length w + 11)%nat. lia. }
  reflexivity.
Qed.

End Stream.

(** X1: the decoder fails only when a read fails.  Whatever bytes the
    chunks hold and whenever the token is cancelled, the promise of
    [processStreamingResponse] is rejected only with the failure of a
    read of the body; in particular a body whose reads all succeed is
    decoded to a normal end, sentinel or not. *)
Theorem streaming_fails_only_on_read responseBody progress token :
  (forall e, fst (processStreamingResponse responseBody progress token) = Throw e ->
     exists reason, e = Rejected reason /\ In (ReadFailure reason) responseBody)
  /\ (forallb is_chunk responseBody = true ->
      fst (processStreamingResponse responseBody progress token) = Normal).
Proof.
  assert (forall e, fst (processStreamingResponse responseBody progress token) = Throw e ->
            exists reason, e = Rejected reason /\ In (ReadFailure reason) responseBody) as H.
  { intros e. apply read_loop_throw. }
  split; [exact H|]. intros Hchunks.
  destruct (fst (processStreamingResponse responseBody progress token)) as [|e] eqn:E;
    [reflexivity|].
  destruct (H e eq_refl) as [reason [_ Hin]].
  rewrite forallb_forall in Hchunks. specialize (Hchunks _ Hin). discriminate Hchunks.
Qed.

(** an instance: a stream that ends without sentinel, after a malformed
    event *)
Lemma streaming_fails_only_on_read_witness :
  fst (processStreamingResponse
         [Chunk (Sample.line "data: {'choices':[{'delta':{'content':'Hel'}}]}");
          Chunk (Sample.line "data: {'choices':")] [] never) = Normal.
Proof.
  apply (proj2 (@streaming_fails_only_on_read _ [] never)). reflexivity.
Defined.

(** X2: a read that fails.  When the reads give chunks and then fail,
    the parts of the complete lines of these chunks are reported before
    the promise is rejected with the failure; if an end sentinel is among
    these lines the call has returned before and the failure is never
    seen. *)
Theorem read_failure_after_chunks chunks reason rest progress :
  processStreamingResponse (List.map Chunk chunks ++ ReadFailure reason :: rest)
                           progress never =
  match for_lines (complete_lines (decoded (List.concat chunks))) progress with
  | (Return, progress') => (Normal, progress')
  | (Continue, progress') => (Throw (Rejected reason), progress')
  end.
Proof.
  unfold processStreamingResponse. rewrite read_loop_chunks_then by reflexivity.
  cbv zeta. cbn [app]. fold (decoded (List.concat chunks)).
  now destruct (for_lines (complete_lines (decoded (List.concat chunks))) progress)
    as [[|] progress'].
Qed.

(** X3: what the decoder reports.  For a body whose reads all succeed
    and a token that is not cancelled, the parts added to the sink are
    the texts of the complete lines that come before the first end
    sentinel, one text part for each line that carries a text, in the
    order of the lines; the parts that the sink held come first,
    untouched. *)
Theorem streaming_reports_texts_in_order chunks progress :
  processStreamingResponse (List.map Chunk chunks) progress never =
  (Normal,
   progress ++ List.map LanguageModelTextPart
                        (texts_of (before_done (complete_lines (decoded (List.concat chunks)))))).
Proof.
  rewrite processStreamingResponse_chunks. now rewrite for_lines_texts_of.
Qed.

(** X4: lines that are no events.  A complete line that does not start
    with [data: ] (a comment, a field [event:], an empty line, a field
    [data:] without the space) adds nothing and stops nothing: the
    decoder reports what it reports for the stream without that line. *)
Theorem other_lines_ignored chunks progress pre line post :
  startsWith line (lit "data: ") = false ->
  complete_lines (decoded (List.concat chunks)) = pre ++ line :: post ->
  processStreamingResponse (List.map Chunk chunks) progress never =
  (Normal, snd (for_lines (pre ++ post) progress)).
Proof.
  intros Hline Hlines.
  rewrite processStreamingResponse_chunks, Hlines, !for_lines_app.
  destruct (for_lines pre progress) as [[|] progress']; [|reflexivity].
  cbn [for_lines]. unfold line_body. now rewrite Hline.
Qed.

(** an instance: an event written without the space after the colon is
    not decoded *)
Lemma other_lines_ignored_witness :
  processStreamingResponse
    [Chunk (Sample.line "data: {'choices':[{'delta':{'content':'Hel'}}]}"
            ++ Sample.line "data:{'choices':[{'delta':{'content':'p'}}]}"
            ++ Sample.line "data: {'choices':[{'delta':{'content':'lo'}}]}")]
    [] never =
  (Normal, [LanguageModelTextPart (lit "Hel"); LanguageModelTextPart (lit "lo")]).
Proof.
  apply (@other_lines_ignored
           [Sample.line "data: {'choices':[{'delta':{'content':'Hel'}}]}"
            ++ Sample.line "data:{'choices':[{'delta':{'content':'p'}}]}"
            ++ Sample.line "data: {'choices':[{'delta':{'content':'lo'}}]}"]
           []
           [q "data: {'choices':[{'delta':{'content':'Hel'}}]}"]
           (q "data:{'choices':[{'delta':{'content':'p'}}]}")
           [q "data: {'choices':[{'delta':{'content':'lo'}}]}"]).
  - vm_compute. reflexivity.
  - vm_compute. reflexivity.
Defined.

(** X5: the end of a stream.  What follows the last line feed of a
    stream is never decoded: when the text of the stream is [text]
    followed by a [tail] without line feed, the decoder reports the parts
    of the complete lines of [text] and no more, even if [tail] is a
    whole event. *)
Theorem unterminated_tail_dropped chunks progress text tail :
  ~ In LF tail ->
  decoded (List.concat chunks) = text ++ tail ->
  processStreamingResponse (List.map Chunk chunks) progress never =
  (Normal, snd (for_lines (complete_lines text) progress)).
Proof.
  intros Htail Htext.
  rewrite processStreamingResponse_chunks, Htext, complete_lines_app.
  assert (complete_lines (partial_line text ++ tail) = []) as ->.
  { apply complete_lines_no_LF. intros Hin. apply in_app_or in Hin as [Hin|Hin];
      [|now apply Htail].
    exact (complete_lines_nil_no_LF _ (complete_lines_partial_line text) Hin). }
  now rewrite app_nil_r.
Qed.

(** an instance: an event that no line feed ends is lost at the end of
    the stream *)
Lemma unterminated_tail_dropped_witness :
  processStreamingResponse
    [Chunk (Sample.line "data: {'choices':[{'delta':{'content':'Hel'}}]}"
            ++ Sample.bytes "data: {'choices':[{'delta':{'content':'lo'}}]}")]
    [] never =
  (Normal, [LanguageModelTextPart (lit "Hel")]).
Proof.
  apply (@unterminated_tail_dropped
           [Sample.line "data: {'choices':[{'delta':{'content':'Hel'}}]}"
            ++ Sample.bytes "data: {'choices':[{'delta':{'content':'lo'}}]}"]
           []
           (q "data: {'choices':[{'delta':{'content':'Hel'}}]}" ++ [LF])
           (q "data: {'choices':[{'delta':{'content':'lo'}}]}")).
  - intros H. vm_compute in H.
    repeat (destruct H as [H|H]; [discriminate H|]). exact H.
  - vm_compute. reflexivity.
Defined.

(** X6: the end sentinel is matched exactly.  A line that is the
    sentinel followed by anything, a carriage return or a space for
    instance, is not the sentinel: it is an event that does not parse,
    and the decoder goes on with the lines and the reads that follow. *)
Theorem sentinel_matched_exactly chunks progress pre suffix post :
  suffix <> [] ->
  complete_lines (decoded (List.concat chunks)) =
    pre ++ (lit "data: [DONE]" ++ suffix) :: post ->
  processStreamingResponse (List.map Chunk chunks) progress never =
  (Normal, snd (for_lines (pre ++ post) progress)).
Proof.
  intros Hsuffix Hlines.
  rewrite processStreamingResponse_chunks, Hlines, !for_lines_app.
  destruct (for_lines pre progress) as [[|] progress']; [|reflexivity].
  cbn [for_lines].
  change (lit "data: [DONE]" ++ suffix) with (lit "data: " ++ (lit "[DONE]" ++ suffix)).
  rewrite line_body_malformed; [reflexivity| |apply parse_done_suffix].
  intros H. apply (f_equal (@List.length _)) in H. rewrite length_app in H.
  destruct suffix; [contradiction|cbn in H; lia].
Qed.

(** an instance: with lines that end in a carriage return and a line
    feed, the sentinel does not end the decoding *)
Lemma sentinel_matched_exactly_witness :
  processStreamingResponse
    [Chunk (List.map (fun c => match Byte.of_N c with Some b => b | None => x00 end)
              (lit "data: [DONE]" ++ [13; 10]
               ++ q "data: {'choices':[{'delta':{'content':'late'}}]}" ++ [13; 10])%N)]
    [] never =
  (Normal, [LanguageModelTextPart (lit "late")]).
Proof.
  apply (@sentinel_matched_exactly
           [List.map (fun c => match Byte.of_N c with Some b => b | None => x00 end)
              (lit "data: [DONE]" ++ [13; 10]
               ++ q "data: {'choices':[{'delta':{'content':'late'}}]}" ++ [13; 10])%N]
           [] [] [13%N]
           [q "data: {'choices':[{'delta':{'content':'late'}}]}" ++ [13%N]]).
  - discriminate.
  - vm_compute. reflexivity.
Defined.

(* ================================================================== *)
(** * The configuration *)
(* ================================================================== *)

Section Configuration.

Lemma ensureConfig_ask silent secrets window :
  ensureConfig silent secrets window =
  let '(url, secrets1, window1) :=
    ask silent (lit "litellm.baseUrl")
        (secrets_get (lit "litellm.baseUrl") secrets) secrets window in
  let '(key, secrets2, window2) :=
    ask silent (lit "litellm.apiKey")
        (secrets_get (lit "litellm.apiKey") secrets) secrets1 window1 in
  (match url with
   | Some ((_ :: _) as u) =>
       Some {| baseUrl := u; apiKey := match key with Some k => k | None => [] end |}
   | _ => None
   end, secrets2, window2).
Proof.
  unfold ensureConfig, ask.
  destruct (not_ (secrets_get (lit "litellm.baseUrl") secrets) && negb silent);
    destruct (not_ (secrets_get (lit "litellm.apiKey") secrets) && negb silent);
    repeat (destruct (showInputBox _) as [[[|? ?]|] ?]; cbn [fst snd]);
    try reflexivity;
    destruct (secrets_get (lit "litellm.baseUrl") secrets) as [[|? ?]|]; reflexivity.
Qed.

Lemma secrets_get_store k v key secrets :
  secrets_get key (secrets_store k v secrets) =
  if jsstring_eqb k key then Some v else secrets_get key secrets.
Proof. reflexivity. Qed.

(** what a step does to the window and to the secrets *)
Lemma ask_spec silent k current secrets window :
  current = secrets_get k secrets ->
  let '(value, secrets', window') := ask silent k current secrets window in
  window' = skipn (if not_ current && negb silent then 1 else 0) window
  /\ (forall key v, secrets_get key secrets = Some v -> v <> [] ->
        secrets_get key secrets' = Some v)
  /\ (forall key, key <> k -> secrets_get key secrets' = secrets_get key secrets)
  /\ (not_ current && negb silent = false -> value = current /\ secrets' = secrets)
  /\ (not_ value = false -> secrets_get k secrets' = value)
  /\ (not_ value = true -> not_ (secrets_get k secrets') = true).
Proof.
  intros Hcurrent. unfold ask.
  destruct (not_ current && negb silent) eqn:E.
  - apply andb_true_iff in E as [Hmissing _].
    destruct window as [|[[|c answer]|] window]; cbn [showInputBox skipn];
      repeat split; try discriminate; auto; try (now subst current).
    + intros key v Hget Hv. rewrite secrets_get_store.
      destruct (jsstring_eqb k key) eqn:Ek; [|exact Hget].
      apply jsstring_eqb_eq in Ek. subst key. rewrite <- Hcurrent in Hget.
      rewrite Hget in Hmissing. destruct v; [contradiction|discriminate].
    + intros key Hkey. rewrite secrets_get_store.
      destruct (jsstring_eqb k key) eqn:Ek; [|reflexivity].
      apply jsstring_eqb_eq in Ek. congruence.
    + intros _. rewrite secrets_get_store.
      now rewrite (proj2 (jsstring_eqb_eq k k) eq_refl).
  - repeat split; auto; try discriminate; try (now subst current).
Qed.

End Configuration.

(** X7: the configuration asks only for what is missing.  A silent
    resolution shows no input box and stores nothing.  Otherwise one box
    is shown for each of the two secrets that is absent or empty, the
    base URL first, whatever the answers (a dismissed box for the URL
    does not spare the box for the key); and no secret that holds a
    value is ever replaced. *)
Theorem ensureConfig_asks_what_is_missing silent secrets window :
  let '(config, secrets', window') := ensureConfig silent secrets window in
  window' = skipn (if silent then 0 else missing secrets) window
  /\ (forall key v, secrets_get key secrets = Some v -> v <> [] ->
        secrets_get key secrets' = Some v)
  /\ (silent = true -> secrets' = secrets).
Proof.
  rewrite ensureConfig_ask.
  pose proof (@ask_spec silent (lit "litellm.baseUrl")
                (secrets_get (lit "litellm.baseUrl") secrets) secrets window eq_refl) as H1.
  destruct (ask silent (lit "litellm.baseUrl") _ secrets window)
    as [[url secrets1] window1].
  destruct H1 as [W1 [K1 [O1 [S1 _]]]].
  assert (secrets_get (lit "litellm.apiKey") secrets =
          secrets_get (lit "litellm.apiKey") secrets1) as Hkey.
  { symmetry. apply O1. discriminate. }
  pose proof (@ask_spec silent (lit "litellm.apiKey")
                (secrets_get (lit "litellm.apiKey") secrets) secrets1 window1 Hkey) as H2.
  destruct (ask silent (lit "litellm.apiKey") _ secrets1 window1)
    as [[key secrets2] window2].
  destruct H2 as [W2 [K2 [O2 [S2 _]]]].
  split; [|split].
  - rewrite W2, W1. unfold missing. destruct silent; cbn [negb].
    + now rewrite !andb_false_r.
    + rewrite !andb_true_r.
      destruct (not_ (secrets_get (lit "litellm.baseUrl") secrets));
        destruct (not_ (secrets_get (lit "litellm.apiKey") secrets));
        cbn [Nat.add skipn]; try reflexivity.
      now destruct window as [|? [|? ?]].
  - intros k v Hget Hv. apply K2; [|exact Hv]. now apply K1.
  - intros ->. cbn [negb] in *. rewrite andb_false_r in *.
    destruct (S1 eq_refl) as [_ ->]. now destruct (S2 eq_refl) as [_ ->].
Qed.

(** X8: what the user has answered is kept.  When a resolution of the
    configuration, silent or not, gives a configuration, its base URL is
    not empty, and a silent resolution on the secrets that it leaves
    gives the same configuration again, with no input box. *)
Theorem ensureConfig_persists silent secrets window config secrets' window' later :
  ensureConfig silent secrets window = (Some config, secrets', window') ->
  baseUrl config <> []
  /\ ensureConfig true secrets' later = (Some config, secrets', later).
Proof.
  rewrite ensureConfig_ask.
  pose proof (@ask_spec silent (lit "litellm.baseUrl")
                (secrets_get (lit "litellm.baseUrl") secrets) secrets window eq_refl) as H1.
  destruct (ask silent (lit "litellm.baseUrl") _ secrets window)
    as [[url secrets1] window1].
  destruct H1 as [_ [_ [O1 [_ [G1 _]]]]].
  assert (secrets_get (lit "litellm.apiKey") secrets =
          secrets_get (lit "litellm.apiKey") secrets1) as Hkey.
  { symmetry. apply O1. discriminate. }
  pose proof (@ask_spec silent (lit "litellm.apiKey")
                (secrets_get (lit "litellm.apiKey") secrets) secrets1 window1 Hkey) as H2.
  destruct (ask silent (lit "litellm.apiKey") _ secrets1 window1)
    as [[key secrets2] window2].
  destruct H2 as [_ [_ [O2 [_ [G2 N2]]]]].
  destruct url as [[|c u]|]; try discriminate.
  intros [= <- <- <-]. cbn [baseUrl]. split; [discriminate|].
  assert (secrets_get (lit "litellm.baseUrl") secrets2 = Some (c :: u)) as Hurl.
  { rewrite O2 by discriminate. now apply G1. }
  rewrite ensureConfig_ask. unfold ask. cbn [negb]. rewrite !andb_false_r, Hurl.
  do 3 f_equal.
  destruct key as [[|c' k]|].
  - specialize (N2 eq_refl). now destruct (secrets_get (lit "litellm.apiKey") secrets2) as [[|]|].
  - now rewrite (G2 eq_refl).
  - specialize (N2 eq_refl). now destruct (secrets_get (lit "litellm.apiKey") secrets2) as [[|]|].
Qed.

(** an instance: the URL and the key that the user types are found again *)
Lemma ensureConfig_persists_witness :
  ensureConfig true
    [(lit "litellm.apiKey", lit "sk-1"); (lit "litellm.baseUrl", lit "http://x")] [] =
  (Some {| baseUrl := lit "http://x"; apiKey := lit "sk-1" |},
   [(lit "litellm.apiKey", lit "sk-1"); (lit "litellm.baseUrl", lit "http://x")], []).
Proof.
  apply (proj2 (@ensureConfig_persists false [] [Some (lit "http://x"); Some (lit "sk-1")]
                  _ _ [] [] eq_refl)).
Defined.

(* ================================================================== *)
(** * Further properties of the entry point *)
(* ================================================================== *)

(** X9: before the network.  A call for a response shows no input box
    and stores no secret.  It sends no request exactly when no
    configuration is found or the messages are not valid; it then
    reports nothing and is rejected, with the error [LiteLLM not
    configured] in the first case and with the error of the validation
    in the second. *)
Theorem response_call_before_network utils this secrets window fetch model messages
    options progress token :
  let outcome := provideLanguageModelChatResponse utils this secrets window fetch
                   model messages options progress token in
  let config := fst (fst (ensureConfig true secrets window)) in
  secrets_after outcome = secrets
  /\ window_after outcome = window
  /\ (sent outcome = None <-> config = None \/ validateRequest utils messages <> None)
  /\ (sent outcome = None -> reported outcome = progress /\ settled outcome <> Normal)
  /\ (config = None -> settled outcome = Throw (Error (lit "LiteLLM not configured")))
  /\ (config <> None -> forall e, validateRequest utils messages = Some e ->
      settled outcome = Throw e).
Proof.
  cbv zeta. unfold provideLanguageModelChatResponse.
  rewrite ensureConfig_silent.
  destruct (fst (fst (ensureConfig true secrets window))) as [config|].
  - destruct (validateRequest utils messages) as [e|].
    + cbn. repeat split; auto; try discriminate.
      * intros _. right. discriminate.
      * now intros _ e' [= <-].
    + assert (forall o : Outcome,
                secrets_after o = secrets -> window_after o = window ->
                sent o <> None ->
                secrets_after o = secrets /\ window_after o = window
                /\ (sent o = None <-> Some config = None \/ @None exn <> None)
                /\ (sent o = None -> reported o = progress /\ settled o <> Normal)
                /\ (Some config = None ->
                    settled o = Throw (Error (lit "LiteLLM not configured")))
                /\ (Some config <> None -> forall e, @None exn = Some e ->
                    settled o = Throw e)) as K.
      { intros o Hs Hw Hsent. repeat split; auto; try discriminate; try contradiction.
        intros [H|H]; [discriminate H|now contradiction H]. }
      destruct (fetch _) as [e|response]; [now apply K|].
      destruct (ok response); cbn [negb].
      * destruct (includes _ _); cbn [negb].
        -- destruct (body response) as [responseBody|]; [|now apply K].
           destruct (processStreamingResponse responseBody progress token).
           now apply K.
        -- destruct (Response_json response) as [e|json_]; [now apply K|].
           destruct (String_of (response_text json_)); now apply K.
      * destruct (Response_text response); now apply K.
  - cbn. repeat split; auto; try discriminate. now intros H.
Qed.

(** X10: a call that fails has reported nothing, unless a read of the
    stream failed.  When the promise of a call is rejected, either the
    sink is as it was before the call, or the response was a stream of
    events, the rejection is the failure of a read of its body, and the
    parts reported are those that the decoder had reported before that
    read. *)
Theorem failed_call_reports_nothing utils this secrets window fetch model messages
    options progress token e :
  let outcome := provideLanguageModelChatResponse utils this secrets window fetch
                   model messages options progress token in
  settled outcome = Throw e ->
  reported outcome = progress
  \/ exists config response responseBody reason,
       fetch (chat_request utils (reset this) config model messages options) = inr response
       /\ ok response = true
       /\ body response = Some responseBody
       /\ processStreamingResponse responseBody progress token = (Throw e, reported outcome)
       /\ e = Rejected reason
       /\ In (ReadFailure reason) responseBody.
Proof.
  cbv zeta. unfold provideLanguageModelChatResponse.
  rewrite ensureConfig_silent.
  destruct (fst (fst (ensureConfig true secrets window))) as [config|]; [|now left].
  destruct (validateRequest utils messages); [now left|].
  destruct (fetch _) as [e'|response] eqn:Efetch; [now left|].
  destruct (ok response) eqn:Eok; cbn [negb].
  - destruct (includes _ _); cbn [negb].
    + destruct (body response) as [responseBody|] eqn:Ebody; [|now left].
      destruct (processStreamingResponse responseBody progress token)
        as [settled' progress'] eqn:Estream.
      cbn. intros ->. right.
      assert (exists reason, e = Rejected reason /\ In (ReadFailure reason) responseBody)
        as [reason [-> Hin]].
      { assert (fst (processStreamingResponse responseBody progress token) = Throw e) as Hfst
          by now rewrite Estream.
        revert Hfst. apply read_loop_throw. }
      exists config, response, responseBody, reason. repeat split; auto.
    + destruct (Response_json response) as [e'|json_]; [now left|].
      destruct (String_of (response_text json_)); [discriminate|now left].
  - destruct (Response_text response); now left.
Qed.

(** an instance: a response that is not a success *)
Lemma failed_call_reports_nothing_witness :
  reported
    (provideLanguageModelChatResponse Sample.utils Sample.fresh Sample.secrets []
       (Sample.backend {| ok := false; content_type := Some (lit "text/event-stream");
                          body := Some [Chunk Sample.hello] |})
       Sample.model [Sample.message "hello"] (Sample.options None)
       [LanguageModelTextPart (lit "before")] never)
  = [LanguageModelTextPart (lit "before")].
Proof.
  destruct (@failed_call_reports_nothing Sample.utils Sample.fresh Sample.secrets []
              (Sample.backend {| ok := false; content_type := Some (lit "text/event-stream");
                                 body := Some [Chunk Sample.hello] |})
              Sample.model [Sample.message "hello"] (Sample.options None)
              [LanguageModelTextPart (lit "before")] never
              (Error (TextDecoder.decode_all Sample.hello)) eq_refl)
    as [H|[config [response [responseBody [reason [_ [_ [_ [_ [H _]]]]]]]]]].
  - exact H.
  - discriminate H.
Defined.

(** X11: failures of the backend.  When the answer to the request is
    not a success, the call is rejected with an error whose message is
    the text of the body, whatever the content type; when the answer is
    a success that announces a stream of events and has no body, the
    call is rejected with [No response body].  Nothing is reported
    either way. *)
Theorem backend_failures utils this secrets window fetch model messages options
    progress token config response :
  fst (fst (ensureConfig true secrets window)) = Some config ->
  validateRequest utils messages = None ->
  fetch (chat_request utils (reset this) config model messages options) = inr response ->
  let outcome := provideLanguageModelChatResponse utils this secrets window fetch
                   model messages options progress token in
  (ok response = false -> forall text, Response_text response = inr text ->
   settled outcome = Throw (Error text) /\ reported outcome = progress)
  /\ (ok response = true ->
      includes (match content_type response with Some c => c | None => [] end)
               (lit "text/event-stream") = true ->
      body response = None ->
      settled outcome = Throw (Error (lit "No response body"))
      /\ reported outcome = progress).
Proof.
  intros Hconfig Hvalid Hfetch. cbv zeta. unfold provideLanguageModelChatResponse.
  rewrite ensureConfig_silent, Hconfig, Hvalid, Hfetch. split.
  - intros -> text ->. now split.
  - intros -> -> ->. now split.
Qed.

(** an instance: the body of a refusal becomes the message of the error *)
Lemma backend_failures_witness :
  settled
    (provideLanguageModelChatResponse Sample.utils Sample.fresh Sample.secrets []
       (Sample.backend Sample.refusal)
       Sample.model [Sample.message "hello"] (Sample.options None) [] never)
  = Throw (Error (q "{'error':'bad key'}")).
Proof.
  refine (proj1 (proj1 (@backend_failures Sample.utils Sample.fresh Sample.secrets []
                          (Sample.backend Sample.refusal) Sample.model
                          [Sample.message "hello"] (Sample.options None) [] never
                          {| baseUrl := lit "http://localhost:4000"; apiKey := lit "sk-1234" |}
                          Sample.refusal eq_refl eq_refl eq_refl) eq_refl _ _)).
  vm_compute. reflexivity.
Defined.

(** X12: the key in the headers.  The request for a response and the
    request for the catalogue carry the user agent of the instance; with
    an empty key they carry neither [Authorization] nor [X-API-Key], and
    with a key they carry both, the first with the key after [Bearer ]. *)
Theorem key_in_headers utils this config model messages options :
  let chat := request_headers (chat_request utils this config model messages options) in
  let models := request_headers (models_request this (apiKey config) (baseUrl config)) in
  header (lit "User-Agent") chat = Some (userAgent this)
  /\ header (lit "User-Agent") models = Some (userAgent this)
  /\ (apiKey config = [] ->
      header (lit "Authorization") chat = None /\ header (lit "X-API-Key") chat = None
      /\ header (lit "Authorization") models = None
      /\ header (lit "X-API-Key") models = None)
  /\ (apiKey config <> [] ->
      header (lit "Authorization") chat = Some (lit "Bearer " ++ apiKey config)
      /\ header (lit "X-API-Key") chat = Some (apiKey config)
      /\ header (lit "Authorization") models = Some (lit "Bearer " ++ apiKey config)
      /\ header (lit "X-API-Key") models = Some (apiKey config)).
Proof.
  cbv zeta. unfold chat_request, models_request, headers. cbn [request_headers].
  destruct (apiKey config) as [|c key]; repeat split; try reflexivity; try contradiction;
    discriminate.
Qed.

(** an instance: a configuration without key *)
Lemma key_in_headers_witness :
  header (lit "Authorization")
    (request_headers (models_request Sample.fresh [] (lit "http://localhost:4000"))) = None.
Proof.
  refine (proj1 (proj2 (proj2 (proj1 (proj2 (proj2
            (@key_in_headers Sample.utils Sample.fresh
               {| baseUrl := lit "http://localhost:4000"; apiKey := [] |}
               Sample.model [] (Sample.options None)))) eq_refl)))).
Defined.

(* ================================================================== *)
(** * The catalogue of models *)
(* ================================================================== *)

Section Catalogue.

Lemma item_id_not_null items ids :
  sequence (List.map item_id items) = Some ids -> existsb is_null items = false.
Proof.
  revert ids. induction items as [|m items IH]; intros ids; [reflexivity|].
  cbn [List.map sequence existsb].
  destruct (item_id m) as [s|] eqn:Em; [|discriminate].
  destruct (sequence (List.map item_id items)) as [ids'|]; [|discriminate].
  intros _. rewrite (IH _ eq_refl). now destruct m.
Qed.

Lemma sequence_length {A} (l : list (option A)) (r : list A) :
  sequence l = Some r -> List.length r = List.length l.
Proof.
  revert r. induction l as [|[x|] l IH]; intros r; cbn; try discriminate.
  - now intros [= <-].
  - destruct (sequence l) as [r'|]; [|discriminate]. intros [= <-]. cbn.
    now rewrite (IH _ eq_refl).
Qed.

End Catalogue.

(** X13: the descriptors of the models.  When the catalogue is an array
    of items with an [id], the discovery returns one descriptor for each
    item, in the order of the catalogue, whose identifier and name are
    the [id], with 112000 input tokens, 16000 output tokens and tool
    calling; and it replaces the endpoints of the instance by one
    endpoint for each item, with a prompt budget of 128000 tokens. *)
Theorem discovery_describes_models this secrets window fetch silent token
    config secrets' window' items ids :
  ensureConfig silent secrets window = (Some config, secrets', window') ->
  fetchModels this fetch (apiKey config) (baseUrl config) = inr (JArr items) ->
  sequence (List.map item_id items) = Some ids ->
  prepareLanguageModelChatInformation this secrets window fetch silent token =
    Some {| prepared_instance :=
              set_chatEndpoints this
                (List.map (fun m => {| endpoint_model := m;
                                       modelMaxPromptTokens := 128000 |}) ids);
            prepared_secrets := secrets';
            prepared_window := window';
            prepared_sent := Some (models_request this (apiKey config) (baseUrl config));
            prepared_result := inr (List.map information ids) |}
  /\ List.length (List.map information ids) = List.length items
  /\ List.map id (List.map information ids) = ids
  /\ Forall (fun i => name i = id i
                      /\ maxInputTokens i = 112000%Z
                      /\ maxOutputTokens i = 16000%Z
                      /\ toolCalling i = true
                      /\ imageInput i = false)
            (List.map information ids).
Proof.
  intros Hconfig Hmodels Hids. split; [|split; [|split]].
  - unfold prepareLanguageModelChatInformation. rewrite Hconfig, Hmodels.
    unfold infos_of. rewrite (item_id_not_null _ Hids), Hids.
    now rewrite map_map.
  - rewrite length_map. apply sequence_length in Hids. now rewrite Hids, length_map.
  - rewrite map_map. cbn [information id]. apply map_id.
  - apply Forall_forall. intros i Hi. apply in_map_iff in Hi as [m [<- _]].
    repeat split.
Qed.

(** an instance: a catalogue of two models *)
Lemma discovery_describes_models_witness :
  option_map prepared_result
    (prepareLanguageModelChatInformation Sample.used Sample.secrets []
       (Sample.backend Sample.catalogue) true never)
  = Some (inr [information (lit "gpt-4o"); information (lit "claude-3")]).
Proof.
  rewrite (proj1 (@discovery_describes_models Sample.used Sample.secrets []
                    (Sample.backend Sample.catalogue) true never
                    {| baseUrl := lit "http://localhost:4000"; apiKey := lit "sk-1234" |}
                    Sample.secrets []
                    [JObj [(lit "id", JStr (lit "gpt-4o")); (lit "object", JStr (lit "model"))];
                     JObj [(lit "id", JStr (lit "claude-3"))]]
                    [lit "gpt-4o"; lit "claude-3"]
                    eq_refl ltac:(vm_compute; reflexivity) eq_refl)).
  reflexivity.
Defined.

(** X14: what [fetchModels] makes of the answer.  An answer that is not
    a success gives an error whose message is the text of the body.  The
    document [null] gives a TypeError.  Otherwise the models are the
    value of [data]; when [data] is absent or [null], and when the
    document is no object, they are the empty array. *)
Theorem fetchModels_edges this fetch key url resp :
  fetch (models_request this key url) = inr resp ->
  (ok resp = false -> forall text, Response_text resp = inr text ->
   fetchModels this fetch key url = inl (Error text))
  /\ (ok resp = true -> Response_json resp = inr JNull ->
      fetchModels this fetch key url = inl TypeError)
  /\ (ok resp = true -> forall parsed, Response_json resp = inr parsed ->
      parsed <> JNull -> nullish (get (lit "data") (Some parsed)) = true ->
      fetchModels this fetch key url = inr (JArr []))
  /\ (ok resp = true -> forall parsed data, Response_json resp = inr parsed ->
      get (lit "data") (Some parsed) = Some data -> data <> JNull ->
      fetchModels this fetch key url = inr data).
Proof.
  intros Hfetch. unfold fetchModels. rewrite Hfetch. repeat split.
  - intros -> text ->. reflexivity.
  - intros -> ->. reflexivity.
  - intros -> parsed -> Hnull Hdata. cbn [negb].
    destruct parsed; try contradiction; cbn in *; try reflexivity.
    destruct (lookup _ members) as [[]|]; try reflexivity; discriminate Hdata.
  - intros -> parsed data -> Hdata Hnull. cbn [negb].
    destruct parsed; try discriminate. cbn in Hdata |- *. rewrite Hdata.
    now destruct data.
Qed.

(** an instance: a document without [data] holds no model *)
Lemma fetchModels_edges_witness :
  fetchModels Sample.fresh (Sample.backend Sample.no_data) (lit "sk-1234")
              (lit "http://localhost:4000") = inr (JArr []).
Proof.
  refine (proj1 (proj2 (proj2 (@fetchModels_edges Sample.fresh (Sample.backend Sample.no_data)
                                 (lit "sk-1234") (lit "http://localhost:4000")
                                 Sample.no_data eq_refl)))
            eq_refl (JObj [(lit "object", JStr (lit "list"))]) _ _ _).
  - vm_compute. reflexivity.
  - discriminate.
  - reflexivity.
Defined.

(** X15: a discovery that gives no catalogue.  A discovery never changes
    the state of a turn nor the user agent of the instance: it changes
    the endpoints at most.  When it finds no configuration it returns no
    model, sends no request and leaves the endpoints as they are, and a
    silent one then shows no input box; when it is rejected it leaves
    the endpoints as they are too. *)
Theorem discovery_keeps_state this secrets window fetch silent token prepared :
  prepareLanguageModelChatInformation this secrets window fetch silent token = Some prepared ->
  (exists endpoints, prepared_instance prepared = set_chatEndpoints this endpoints)
  /\ (fst (fst (ensureConfig silent secrets window)) = None ->
      prepared_result prepared = inr [] /\ prepared_sent prepared = None
      /\ prepared_instance prepared = this
      /\ (silent = true -> prepared_window prepared = window
                           /\ prepared_secrets prepared = secrets))
  /\ (forall e, prepared_result prepared = inl e -> prepared_instance prepared = this).
Proof.
  assert (set_chatEndpoints this (_chatEndpoints this) = this) as Hthis by now destruct this.
  unfold prepareLanguageModelChatInformation.
  pose proof (ensureConfig_silent secrets window) as Hsilent.
  destruct (ensureConfig silent secrets window) as [[[config|] secrets'] window'] eqn:E;
    cbn [fst].
  - destruct (fetchModels this fetch (apiKey config) (baseUrl config)) as [e|models].
    + intros [= <-]. cbn. split; [|split]; [eauto|discriminate|reflexivity].
    + destruct (infos_of models) as [[e|infos]|]; [| |discriminate].
      * intros [= <-]. cbn. split; [|split]; [eauto|discriminate|reflexivity].
      * intros [= <-]. cbn. split; [|split]; [eauto|discriminate|discriminate].
  - intros [= <-]. cbn. split; [|split]; [eauto| |reflexivity].
    intros _. split; [reflexivity|]. split; [reflexivity|]. split; [reflexivity|].
    intros ->. rewrite E in Hsilent. now injection Hsilent.
Qed.

(** an instance: a silent discovery without base URL *)
Lemma discovery_keeps_state_witness :
  prepareLanguageModelChatInformation Sample.used [] [Some (lit "http://x")]
    (Sample.backend Sample.catalogue) true never =
  Some {| prepared_instance := Sample.used; prepared_secrets := [];
          prepared_window := [Some (lit "http://x")]; prepared_sent := None;
          prepared_result := inr [] |}.
Proof.
  destruct (prepareLanguageModelChatInformation Sample.used [] [Some (lit "http://x")]
              (Sample.backend Sample.catalogue) true never) as [prepared|] eqn:E;
    [|discriminate E].
  destruct (@discovery_keeps_state Sample.used [] [Some (lit "http://x")]
              (Sample.backend Sample.catalogue) true never prepared E)
    as [_ [H _]].
  destruct (H eq_refl) as [Hr [Hs [Hi Hw]]]. destruct (Hw eq_refl) as [Hw1 Hw2].
  destruct prepared. cbn in *. now subst.
Defined.

(* ================================================================== *)
(** * Further properties of the counts of tokens *)
(* ================================================================== *)

Section Counts.

Lemma provideTokenCount_message model m :
  provideTokenCount model (inr m) =
  sum (List.map (fun v => ceil_quarter (List.length v)) (text_values [m])).
Proof.
  unfold provideTokenCount.
  change (fold_left _ (content m) 0%Z) with (fold_left part_tokens (content m) 0%Z).
  rewrite parts_tokens. destruct m as [r parts]. cbn [content]. reflexivity.
Qed.

Lemma estimate_sum msgs :
  estimateMessagesTokens msgs =
  sum (List.map (fun v => ceil_quarter (List.length v)) (text_values msgs)).
Proof.
  unfold estimateMessagesTokens.
  change (fold_left _ msgs 0%Z)
    with (fold_left (fun total m => fold_left part_tokens (content m) total) msgs 0%Z).
  now rewrite messages_tokens.
Qed.

Lemma text_values_app a b : text_values (a ++ b) = text_values a ++ text_values b.
Proof. unfold text_values. apply flat_map_app. Qed.

Lemma ceil_quarter_bounds (n : nat) :
  (Z.of_nat n <= 4 * ceil_quarter n < Z.of_nat n + 4)%Z.
Proof.
  unfold ceil_quarter.
  pose proof (Z.div_mod (Z.of_nat n + 3) 4) as H.
  pose proof (Z.mod_pos_bound (Z.of_nat n + 3) 4) as B. lia.
Qed.

Lemma sum_ceil_bounds (values : list jsstring) :
  (Z.of_nat (List.length (List.concat values))
   <= 4 * sum (List.map (fun v => ceil_quarter (List.length v)) values)
   <= Z.of_nat (List.length (List.concat values)) + 3 * Z.of_nat (List.length values))%Z.
Proof.
  unfold sum. induction values as [|v values IH]; cbn [List.concat List.map fold_right].
  - cbn. lia.
  - rewrite length_app. cbn [List.length].
    pose proof (ceil_quarter_bounds (List.length v)). lia.
Qed.

Lemma serialized_array_length (items : list json) :
  (2 <= List.length (JSON.stringify (JArr items)))%nat.
Proof.
  unfold JSON.stringify. cbn [JSON.serialize].
  destruct (List.map _ items); cbn [lit List.map list_ascii_of_string].
  - cbn. lia.
  - rewrite !length_app. cbn [List.length]. lia.
Qed.

Lemma infos_of_information models infos :
  infos_of models = Some (inr infos) -> exists ids, infos = List.map information ids.
Proof.
  unfold infos_of. destruct models; try discriminate.
  destruct (existsb is_null elements); [discriminate|].
  destruct (sequence (List.map item_id elements)) as [ids|]; [|discriminate].
  intros [= <-]. now exists ids.
Qed.

End Counts.

(** X16: the two counts agree.  The estimate of a list of messages is
    the sum of the counts that [provideTokenCount] gives for each
    message; hence the estimate of two lists put end to end is the sum
    of their estimates, and the estimate of no message is 0. *)
Theorem estimate_sums_counts model msgs more :
  estimateMessagesTokens msgs =
    sum (List.map (fun m => provideTokenCount model (inr m)) msgs)
  /\ estimateMessagesTokens (msgs ++ more) =
     (estimateMessagesTokens msgs + estimateMessagesTokens more)%Z
  /\ estimateMessagesTokens [] = 0%Z.
Proof.
  assert (forall a b, estimateMessagesTokens (a ++ b) =
                      (estimateMessagesTokens a + estimateMessagesTokens b)%Z) as Hadd.
  { intros a b. rewrite !estimate_sum, text_values_app, map_app. apply sum_app. }
  assert (forall m, estimateMessagesTokens [m] = provideTokenCount model (inr m)) as Hone.
  { intros m. rewrite provideTokenCount_message. apply estimate_sum. }
  split; [|split; [apply Hadd|reflexivity]].
  induction msgs as [|m msgs IH]; [reflexivity|].
  change (m :: msgs) with ([m] ++ msgs). rewrite Hadd, Hone, IH. reflexivity.
Qed.

(** X17: the counts and the lengths.  The count of a string is the
    least number of tokens of 4 characters that hold it: 4 times the
    count is at least the length and less than the length plus 4, and
    the count is 0 for the empty string only.  For messages, 4 times
    the estimate is at least the total length of the text parts and at
    most that length plus 3 for each text part; parts that are no text
    count for nothing. *)
Theorem counts_bound_lengths model (s : jsstring) msgs :
  (Z.of_nat (List.length s) <= 4 * provideTokenCount model (inl s)
   < Z.of_nat (List.length s) + 4)%Z
  /\ (provideTokenCount model (inl s) = 0%Z <-> s = [])
  /\ (Z.of_nat (List.length (List.concat (text_values msgs)))
      <= 4 * estimateMessagesTokens msgs
      <= Z.of_nat (List.length (List.concat (text_values msgs)))
         + 3 * Z.of_nat (List.length (text_values msgs)))%Z.
Proof.
  split; [|split].
  - apply ceil_quarter_bounds.
  - cbn [provideTokenCount]. pose proof (ceil_quarter_bounds (List.length s)) as B.
    split.
    + intros H. rewrite H in B. destruct s; [reflexivity|cbn [List.length] in B; lia].
    + now intros ->.
  - rewrite estimate_sum. apply sum_ceil_bounds.
Qed.

(** X18: when the estimate of the tools is 0.  The estimate of an array
    of tools is 0 only when there is no array, when it is empty, or when
    its serialization fails; an array that is serialized counts for one
    token at least. *)
Theorem tool_estimate_zero tools :
  (0 <= estimateToolTokens tools)%Z
  /\ (estimateToolTokens tools = 0%Z <->
      tools = None \/ tools = Some []
      \/ exists ts, tools = Some ts /\ JSON_stringify_tools ts = None).
Proof.
  destruct tools as [[|tool tools]|]; cbn [estimateToolTokens].
  - split; [lia|]. split; auto.
  - destruct (JSON_stringify_tools (tool :: tools)) as [text|] eqn:E.
    + assert (2 <= List.length text)%nat as L.
      { unfold JSON_stringify_tools in E.
        destruct (sequence (List.map tool_json (tool :: tools))); [|discriminate].
        injection E as <-. apply serialized_array_length. }
      pose proof (ceil_quarter_bounds (List.length text)) as B.
      split; [lia|]. split; [lia|].
      intros [H|[H|[ts [H1 H2]]]]; try discriminate.
      injection H1 as <-. rewrite E in H2. discriminate.
    + split; [lia|]. split; [|reflexivity]. intros _. right. right. eauto.
  - split; [lia|]. split; auto.
Qed.

(** X19: the limits of a discovered model.  For a model that a discovery
    has returned, the request for a response asks for at most 16000
    output tokens: its [max_tokens] is the smaller of 16000 and of the
    value of the caller, or of 4096 when the caller gives none or gives
    0; and the instance holds for this model an endpoint with a prompt
    budget of 128000 tokens, the sum of the two limits of the model. *)
Theorem discovered_model_limits utils this secrets window fetch silent token prepared
    infos model messages options :
  prepareLanguageModelChatInformation this secrets window fetch silent token = Some prepared ->
  prepared_result prepared = inr infos ->
  In model infos ->
  body_max_tokens (requestBody utils model messages options) =
    Z.min (or_ (opt (modelOptions options) max_tokens) 4096) 16000
  /\ (body_max_tokens (requestBody utils model messages options) <= 16000)%Z
  /\ (maxInputTokens model + maxOutputTokens model = 128000)%Z
  /\ In {| endpoint_model := id model; modelMaxPromptTokens := 128000 |}
        (_chatEndpoints (prepared_instance prepared)).
Proof.
  unfold prepareLanguageModelChatInformation.
  destruct (ensureConfig silent secrets window) as [[[config|] secrets'] window'].
  - destruct (fetchModels this fetch (apiKey config) (baseUrl config)) as [e|models];
      [intros [= <-]; discriminate|].
    destruct (infos_of models) as [[e|infos']|] eqn:E; [intros [= <-]; discriminate| |discriminate].
    apply infos_of_information in E as [ids ->].
    intros [= <-]. cbn [prepared_result prepared_instance]. intros [= <-] Hin.
    apply in_map_iff in Hin as [m [<- Hm]].
    split; [reflexivity|]. split; [apply Z.le_min_r|]. split; [reflexivity|].
    cbn [set_chatEndpoints _chatEndpoints]. rewrite map_map. apply in_map_iff.
    exists m. now split.
  - intros [= <-]. cbn. intros [= <-] [].
Qed.

(** an instance: the second model of a catalogue *)
Lemma discovered_model_limits_witness :
  body_max_tokens (requestBody Sample.utils (information (lit "claude-3"))
                               [Sample.message "hello"] (Sample.options (Some 20000%Z)))
  = 16000%Z.
Proof.
  destruct (prepareLanguageModelChatInformation Sample.fresh Sample.secrets []
              (Sample.backend Sample.catalogue) true never) as [prepared|] eqn:E;
    [|vm_compute in E; discriminate E].
  rewrite (proj1 (@discovered_model_limits Sample.utils Sample.fresh Sample.secrets []
                    (Sample.backend Sample.catalogue) true never prepared
                    [information (lit "gpt-4o"); information (lit "claude-3")]
                    (information (lit "claude-3")) [Sample.message "hello"]
                    (Sample.options (Some 20000%Z)) E
                    ltac:(vm_compute in E; injection E as <-; reflexivity)
                    ltac:(right; left; reflexivity))).
  reflexivity.
Defined.

(* ================================================================== *)
(** * Lines that end with a carriage return and a line feed *)
(* ================================================================== *)

Section CarriageReturn.

Lemma skip_ws_CR (s : jsstring) :
  JSON.skip_ws (s ++ [13%N]) =
  match JSON.skip_ws s with [] => [] | r => r ++ [13%N] end.
Proof.
  induction s as [|c s IH]; [reflexivity|]. cbn [app JSON.skip_ws].
  destruct (JSON.is_ws c); [exact IH|reflexivity].
Qed.

Lemma push_CR c o : JSON.push c (rest_CR o) = rest_CR (JSON.push c o).
Proof. now destruct o as [[str r]|]. Qed.

Lemma string_chars_CR_bounded : forall (n : nat) (s : jsstring),
  (List.length s <= n)%nat ->
  JSON.string_chars (s ++ [13%N]) = rest_CR (JSON.string_chars s).
Proof.
  induction n as [|n IH]; intros s Hn.
  - destruct s; [reflexivity|cbn in Hn; lia].
  - destruct s as [|c s]; [reflexivity|]. cbn [app JSON.string_chars]. cbn in Hn.
    destruct (N.eqb c 34); [reflexivity|].
    destruct (N.eqb c 92).
    + destruct s as [|e s]; [reflexivity|]. cbn [app].
      destruct (N.eqb e 117).
      * destruct s as [|h1 [|h2 [|h3 [|h4 s]]]]; cbn [app]; try reflexivity.
        -- now destruct (JSON.hex_value h1), (JSON.hex_value h2), (JSON.hex_value h3).
        -- destruct (JSON.hex_value h1), (JSON.hex_value h2), (JSON.hex_value h3),
             (JSON.hex_value h4); try reflexivity.
           rewrite IH by (cbn in *; lia). apply push_CR.
      * destruct (JSON.escape e); [|reflexivity].
        rewrite IH by (cbn in *; lia). apply push_CR.
    + destruct (N.ltb c 32); [reflexivity|].
      rewrite IH by lia. apply push_CR.
Qed.

Lemma string_chars_CR (s : jsstring) :
  JSON.string_chars (s ++ [13%N]) = rest_CR (JSON.string_chars s).
Proof. apply (@string_chars_CR_bounded (List.length s)). lia. Qed.

Lemma span_digits_CR (s : jsstring) :
  JSON.span_digits (s ++ [13%N]) =
  (fst (JSON.span_digits s), snd (JSON.span_digits s) ++ [13%N]).
Proof.
  induction s as [|c s IH]; [reflexivity|]. cbn [app JSON.span_digits].
  destruct (is_digit c); [|reflexivity]. rewrite IH.
  now destruct (JSON.span_digits s).
Qed.

Lemma minus_sign_CR (s : jsstring) :
  JSON.minus_sign (s ++ [13%N]) =
  (fst (JSON.minus_sign s), snd (JSON.minus_sign s) ++ [13%N]).
Proof. destruct s as [|c s]; [reflexivity|]. cbn. now destruct (N.eqb c 45). Qed.

Lemma int_part_CR (s : jsstring) :
  JSON.int_part (s ++ [13%N]) = rest_CR (JSON.int_part s).
Proof.
  destruct s as [|c s]; [reflexivity|]. cbn [app]. unfold JSON.int_part.
  destruct (N.eqb c 48); [reflexivity|].
  destruct (is_digit c); [|reflexivity].
  change (c :: s ++ [13%N]) with ((c :: s) ++ [13%N]). rewrite span_digits_CR.
  now destruct (JSON.span_digits (c :: s)).
Qed.

Lemma frac_part_CR (s : jsstring) :
  JSON.frac_part (s ++ [13%N]) = rest_CR (JSON.frac_part s).
Proof.
  destruct s as [|c s]; [reflexivity|]. cbn [app JSON.frac_part].
  destruct (N.eqb c 46); [|reflexivity]. rewrite span_digits_CR.
  now destruct (JSON.span_digits s) as [[|f fs] r].
Qed.

Lemma exp_sign_CR (s : jsstring) :
  JSON.exp_sign (s ++ [13%N]) =
  (fst (JSON.exp_sign s), snd (JSON.exp_sign s) ++ [13%N]).
Proof.
  destruct s as [|c s]; [reflexivity|]. cbn.
  destruct (N.eqb c 45); [reflexivity|]. now destruct (N.eqb c 43).
Qed.

Lemma exp_part_CR (s : jsstring) :
  JSON.exp_part (s ++ [13%N]) = rest_CR (JSON.exp_part s).
Proof.
  destruct s as [|c s]; [reflexivity|]. cbn [app JSON.exp_part].
  destruct (N.eqb c 101 || N.eqb c 69); [|reflexivity].
  rewrite exp_sign_CR. destruct (JSON.exp_sign s) as [neg r1]. cbn [fst snd].
  rewrite span_digits_CR. now destruct (JSON.span_digits r1) as [[|d ds] r2].
Qed.

Lemma number_CR (s : jsstring) :
  JSON.number (s ++ [13%N]) = rest_CR (JSON.number s).
Proof.
  unfold JSON.number. rewrite minus_sign_CR.
  destruct (JSON.minus_sign s) as [neg s1]. cbn [fst snd].
  rewrite int_part_CR. destruct (JSON.int_part s1) as [[ints s2]|]; [|reflexivity].
  cbn [rest_CR]. rewrite frac_part_CR.
  destruct (JSON.frac_part s2) as [[fracs s3]|]; [|reflexivity].
  cbn [rest_CR]. rewrite exp_part_CR.
  now destruct (JSON.exp_part s3) as [[e s4]|].
Qed.

Lemma startsWith_CR (w s : jsstring) :
  ~ In 13%N w -> startsWith (s ++ [13%N]) w = startsWith s w.
Proof.
  revert s. induction w as [|c w IH]; intros s Hw; [reflexivity|].
  destruct s as [|d s]; cbn [app startsWith].
  - destruct (N.eqb 13 c) eqn:E; [|reflexivity].
    apply N.eqb_eq in E. exfalso. apply Hw. now left.
  - rewrite IH; [reflexivity|]. intros H. apply Hw. now right.
Qed.

Lemma startsWith_length (w s : jsstring) :
  startsWith s w = true -> (List.length w <= List.length s)%nat.
Proof.
  revert s. induction w as [|c w IH]; intros s; cbn; [lia|].
  destruct s as [|d s]; [discriminate|]. intros H.
  apply andb_true_iff in H as [_ H]. apply IH in H. cbn. lia.
Qed.

Lemma keyword_CR (w s : jsstring) (v : json) :
  ~ In 13%N w -> JSON.keyword w v (s ++ [13%N]) = rest_CR (JSON.keyword w v s).
Proof.
  intros Hw. unfold JSON.keyword. rewrite (startsWith_CR _ s Hw).
  destruct (startsWith s w) eqn:E; [|reflexivity].
  apply startsWith_length in E. cbn [rest_CR]. rewrite skipn_app.
  replace (List.length w - List.length s)%nat with 0%nat by lia. reflexivity.
Qed.

Lemma value_CR (d : nat) :
  (forall s, JSON.value d (s ++ [13%N]) = rest_CR (JSON.value d s))
  /\ (forall acc s, JSON.elements d acc (s ++ [13%N]) = rest_CR (JSON.elements d acc s))
  /\ (forall acc s, JSON.members d acc (s ++ [13%N]) = rest_CR (JSON.members d acc s)).
Proof.
  induction d as [|d [IHv [IHe IHm]]]; [repeat split|].
  split; [|split].
  - intros s. cbn [JSON.value]. rewrite skip_ws_CR.
    destruct (JSON.skip_ws s) as [|c r0]; [reflexivity|]. cbn [app].
    destruct (N.eqb c 123).
    { rewrite skip_ws_CR. destruct (JSON.skip_ws r0) as [|c' r']; [reflexivity|].
      cbn [app]. destruct (N.eqb c' 125); [reflexivity|apply IHm]. }
    destruct (N.eqb c 91).
    { rewrite skip_ws_CR. destruct (JSON.skip_ws r0) as [|c' r']; [reflexivity|].
      cbn [app]. destruct (N.eqb c' 93); [reflexivity|apply IHe]. }
    destruct (N.eqb c 34).
    { rewrite string_chars_CR. now destruct (JSON.string_chars r0) as [[str r']|]. }
    change (c :: r0 ++ [13%N]) with ((c :: r0) ++ [13%N]).
    destruct (N.eqb c 116).
    { apply keyword_CR. cbv. intuition discriminate. }
    destruct (N.eqb c 102).
    { apply keyword_CR. cbv. intuition discriminate. }
    destruct (N.eqb c 110).
    { apply keyword_CR. cbv. intuition discriminate. }
    rewrite number_CR. now destruct (JSON.number (c :: r0)) as [[x r']|].
  - intros acc s. cbn [JSON.elements]. rewrite IHv.
    destruct (JSON.value d s) as [[v r]|]; [|reflexivity]. cbn [rest_CR].
    rewrite skip_ws_CR. destruct (JSON.skip_ws r) as [|c r']; [reflexivity|].
    cbn [app]. destruct (N.eqb c 44); [apply IHe|]. now destruct (N.eqb c 93).
  - intros acc s. cbn [JSON.members]. rewrite skip_ws_CR.
    destruct (JSON.skip_ws s) as [|c r0]; [reflexivity|]. cbn [app].
    destruct (N.eqb c 34); [|reflexivity]. rewrite string_chars_CR.
    destruct (JSON.string_chars r0) as [[k r1]|]; [|reflexivity]. cbn [rest_CR].
    rewrite skip_ws_CR. destruct (JSON.skip_ws r1) as [|c1 r2]; [reflexivity|].
    cbn [app]. destruct (N.eqb c1 58); [|reflexivity]. rewrite IHv.
    destruct (JSON.value d r2) as [[v r3]|]; [|reflexivity]. cbn [rest_CR].
    rewrite skip_ws_CR. destruct (JSON.skip_ws r3) as [|c3 r4]; [reflexivity|].
    cbn [app]. destruct (N.eqb c3 44); [apply IHm|]. now destruct (N.eqb c3 125).
Qed.

(** a carriage return after a JSON text changes nothing to its value *)
Lemma parse_CR (text : jsstring) : JSON.parse (text ++ [13%N]) = JSON.parse text.
Proof.
  unfold JSON.parse. rewrite (proj1 (value_CR _)).
  rewrite (@parse_depth text (2 * List.length (text ++ [13%N]) + 2))
    by (rewrite length_app; cbn; lia).
  destruct (JSON.value (2 * List.length text + 2) text) as [[v r]|]; [|reflexivity].
  cbn [rest_CR]. rewrite skip_ws_CR. now destruct (JSON.skip_ws r).
Qed.

Lemma line_text_CR (line : jsstring) : line_text (line ++ [13%N]) = line_text line.
Proof.
  unfold line_text. rewrite startsWith_CR by (cbv; intuition discriminate).
  destruct (startsWith line (lit "data: ")) eqn:E; [|reflexivity].
  apply startsWith_length in E. unfold slice. rewrite skipn_app.
  change (List.length (lit "data: ")) with 6%nat in E.
  replace (6 - List.length line)%nat with 0%nat by lia. cbn [skipn].
  now rewrite parse_CR.
Qed.

Lemma is_done_CR (line : jsstring) : is_done (line ++ [13%N]) = false.
Proof.
  unfold is_done. rewrite startsWith_CR by (cbv; intuition discriminate).
  destruct (startsWith line (lit "data: ")) eqn:E; [|reflexivity].
  apply startsWith_length in E. unfold slice. rewrite skipn_app.
  change (List.length (lit "data: ")) with 6%nat in E.
  replace (6 - List.length line)%nat with 0%nat by lia. cbn [skipn andb].
  apply jsstring_eqb_neq. intros H.
  assert (In 13%N (lit "[DONE]")) as Hin.
  { rewrite <- H. apply in_or_app. right. now left. }
  cbv in Hin. intuition discriminate.
Qed.

Lemma before_done_CR (lines : list jsstring) :
  before_done (List.map (fun l => l ++ [13%N]) lines) = List.map (fun l => l ++ [13%N]) lines.
Proof.
  induction lines as [|l lines IH]; [reflexivity|].
  cbn [List.map before_done]. now rewrite is_done_CR, IH.
Qed.

Lemma texts_of_CR (lines : list jsstring) :
  texts_of (List.map (fun l => l ++ [13%N]) lines) = texts_of lines.
Proof.
  unfold texts_of. induction lines as [|l lines IH]; [reflexivity|].
  cbn [List.map flat_map]. now rewrite line_text_CR, IH.
Qed.

End CarriageReturn.

(** X20: lines that end with a carriage return and a line feed.  When
    every line of the stream ends with a carriage return before its line
    feed, the decoder reports the texts of all the events, as it does
    for lines that a line feed alone ends, with one difference: the end
    sentinel is not recognized, so that the events that follow it are
    reported too and only the end of the stream ends the decoding. *)
Theorem crlf_framing chunks progress lines :
  complete_lines (decoded (List.concat chunks)) = List.map (fun l => l ++ [13%N]) lines ->
  processStreamingResponse (List.map Chunk chunks) progress never =
  (Normal, progress ++ List.map LanguageModelTextPart (texts_of lines)).
Proof.
  intros Hlines.
  rewrite processStreamingResponse_chunks, for_lines_texts_of, Hlines.
  now rewrite before_done_CR, texts_of_CR.
Qed.

(** an instance: two events, the sentinel and a late event *)
Lemma crlf_framing_witness :
  processStreamingResponse
    (List.map Chunk
       [List.map (fun c => match Byte.of_N c with Some b => b | None => x00 end)
          (q "data: {'choices':[{'delta':{'content':'Hel'}}]}" ++ [13; 10]
           ++ q "data: {'choices':[{'delta':{'content':'lo'}}]}" ++ [13; 10]
           ++ lit "data: [DONE]" ++ [13; 10]
           ++ q "data: {'choices':[{'delta':{'content':'late'}}]}" ++ [13; 10])%N])
    [] never =
  (Normal, [LanguageModelTextPart (lit "Hel"); LanguageModelTextPart (lit "lo");
            LanguageModelTextPart (lit "late")]).
Proof.
  rewrite (@crlf_framing _ []
             [q "data: {'choices':[{'delta':{'content':'Hel'}}]}";
              q "data: {'choices':[{'delta':{'content':'lo'}}]}";
              lit "data: [DONE]";
              q "data: {'choices':[{'delta':{'content':'late'}}]}"]).
  - vm_compute. reflexivity.
  - vm_compute. reflexivity.
Defined.
